(** * goexpress-redis: sessions and response cache

    A shallow embedding of the session package (store.go, redis.go,
    middleware.go) and of the cache package (cache.go, middleware.go),
    together with the properties of the specification that concern them.

    Conventions of the embedding:
    - a [time.Time] is the instant it denotes, in nanoseconds since the Unix
      epoch, as a [Z]; a [time.Duration] is a [Z] count of nanoseconds that
      saturates at the int64 bounds where Go's does;
    - [time.Now()] reads a clock that is passed explicitly ([now]);
    - a Go pointer [*Session] is a location in a heap of sessions;
    - a function that can fail returns a [result];
    - the Redis server is a finite map from keys to typed entries with an
      optional deadline. *)

From Stdlib Require Import ZArith NArith Lia Zify Decimal DecimalPos DecimalZ Ascii
  String.
From stdpp Require Import base option list strings gmap fin_maps.

Local Open Scope string_scope.
Local Open Scope Z_scope.

(* ===================================================================== *)
(** ** Go's [time] package, as far as the code uses it *)
(* ===================================================================== *)

Module GoTime.
Abbreviation Time := Z (only parsing).
Abbreviation Duration := Z (only parsing).

Definition Nanosecond : Duration := 1.
Definition Millisecond : Duration := 1000000.
Definition Second : Duration := 1000000000.
Definition Minute : Duration := 60 * Second.
Definition Hour : Duration := 60 * Minute.

Definition minDuration : Duration := - 2 ^ 63.
Definition maxDuration : Duration := 2 ^ 63 - 1.

(** [t.Add(d)] *)
Definition Add (t : Time) (d : Duration) : Time := t + d.

(** [t.After(u)]: [t] is strictly later than [u]. *)
Definition After (t u : Time) : bool := u <? t.

(** [t.Sub(u)]: the difference, saturated to the range of a Duration. *)
Definition Sub (t u : Time) : Duration :=
  if t - u <? minDuration then minDuration
  else if maxDuration <? t - u then maxDuration
  else t - u.

(** [time.Until(t)] is [t.Sub(time.Now())]. *)
Definition Until (now t : Time) : Duration := Sub t now.

(** The zero [time.Time] (January 1, year 1, 00:00 UTC). *)
Definition zero : Time := -62135596800 * Second.

End GoTime.

(* ===================================================================== *)
(** ** JSON documents and their text

    [encoding/json] belongs to Go's standard library. It is modelled by
    the documents it reads and writes and by a compact text form of them:
    numbers are integers, and a string escapes the quote and the
    backslash. *)
(* ===================================================================== *)

Module Json.
#[local] Unset Elimination Schemes.
Inductive json : Type :=
| JNull
| JBool (b : bool)
| JNum (n : Z)
| JStr (s : string)
| JArr (l : list json)
| JObj (kvs : list (string * json)).
#[local] Set Elimination Schemes.

(** Induction over documents that reaches inside arrays and objects. *)
Section json_induction.
Variable P : json → Prop.
Hypothesis HNull : P JNull.
Hypothesis HBool : ∀ b, P (JBool b).
Hypothesis HNum : ∀ n, P (JNum n).
Hypothesis HStr : ∀ s, P (JStr s).
Hypothesis HArr : ∀ l, Forall P l → P (JArr l).
Hypothesis HObj : ∀ kvs, Forall (λ kv, P kv.2) kvs → P (JObj kvs).

Fixpoint json_nested_ind (j : json) : P j :=
  match j with
  | JNull => HNull
  | JBool b => HBool b
  | JNum n => HNum n
  | JStr s => HStr s
  | JArr l =>
      HArr l ((fix go (l : list json) : Forall P l :=
                 match l with
                 | [] => Forall_nil_2 P
                 | x :: l' => Forall_cons_2 P x l' (json_nested_ind x) (go l')
                 end) l)
  | JObj kvs =>
      HObj kvs ((fix go (l : list (string * json)) : Forall (λ kv, P kv.2) l :=
                   match l with
                   | [] => Forall_nil_2 _
                   | kv :: l' =>
                       Forall_cons_2 (λ kv, P kv.2) kv l'
                         (json_nested_ind kv.2) (go l')
                   end) kvs)
  end.
End json_induction.

(** Number of nodes of a document: the fuel its text needs to be read. *)
Fixpoint jsize (j : json) : nat :=
  match j with
  | JArr l => S (foldr (λ x n, jsize x + n)%nat O l)
  | JObj kvs => S (foldr (λ kv n, jsize kv.2 + n)%nat O kvs)
  | _ => 1%nat
  end.

(** *** Writing *)

Fixpoint print_uint (d : Decimal.uint) : string :=
  match d with
  | Nil => ""
  | D0 d => String "0"%char (print_uint d)
  | D1 d => String "1"%char (print_uint d)
  | D2 d => String "2"%char (print_uint d)
  | D3 d => String "3"%char (print_uint d)
  | D4 d => String "4"%char (print_uint d)
  | D5 d => String "5"%char (print_uint d)
  | D6 d => String "6"%char (print_uint d)
  | D7 d => String "7"%char (print_uint d)
  | D8 d => String "8"%char (print_uint d)
  | D9 d => String "9"%char (print_uint d)
  end.

Definition print_Z (z : Z) : string :=
  match Z.to_int z with
  | Decimal.Pos d => print_uint d
  | Decimal.Neg d => String "-"%char (print_uint d)
  end.

Fixpoint escape (s : string) : string :=
  match s with
  | "" => ""
  | String c r =>
      if Ascii.eqb c "034"%char then String "\"%char (String "034"%char (escape r))
      else if Ascii.eqb c "\"%char then String "\"%char (String "\"%char (escape r))
      else String c (escape r)
  end.

Definition print_string (s : string) : string :=
  String "034"%char (escape s ++ String "034"%char "").

Fixpoint print (j : json) : string :=
  match j with
  | JNull => "null"
  | JBool true => "true"
  | JBool false => "false"
  | JNum n => print_Z n
  | JStr s => print_string s
  | JArr l =>
      "[" ++
      (fix elems (l : list json) : string :=
         match l with
         | [] => "]"
         | [x] => print x ++ "]"
         | x :: l' => print x ++ "," ++ elems l'
         end) l
  | JObj kvs =>
      "{" ++
      (fix members (l : list (string * json)) : string :=
         match l with
         | [] => "}"
         | [kv] => (print_string kv.1 ++ ":" ++ print kv.2) ++ "}"
         | kv :: l' =>
             (print_string kv.1 ++ ":" ++ print kv.2) ++ "," ++ members l'
         end) kvs
  end.

(** *** Reading *)

Definition is_ws (c : ascii) : bool :=
  Ascii.eqb c " "%char || Ascii.eqb c "009"%char || Ascii.eqb c "010"%char || Ascii.eqb c "013"%char.

Fixpoint skip_ws (s : string) : string :=
  match s with
  | "" => ""
  | String c r => if is_ws c then skip_ws r else s
  end.

Definition digit_of (c : ascii) : option (Decimal.uint → Decimal.uint) :=
  if Ascii.eqb c "0"%char then Some D0
  else if Ascii.eqb c "1"%char then Some D1
  else if Ascii.eqb c "2"%char then Some D2
  else if Ascii.eqb c "3"%char then Some D3
  else if Ascii.eqb c "4"%char then Some D4
  else if Ascii.eqb c "5"%char then Some D5
  else if Ascii.eqb c "6"%char then Some D6
  else if Ascii.eqb c "7"%char then Some D7
  else if Ascii.eqb c "8"%char then Some D8
  else if Ascii.eqb c "9"%char then Some D9
  else None.

(** The longest prefix of digits, and what follows it. *)
Fixpoint read_uint (s : string) : Decimal.uint * string :=
  match s with
  | "" => (Nil, "")
  | String c r =>
      match digit_of c with
      | Some d => let '(u, rest) := read_uint r in (d u, rest)
      | None => (Nil, s)
      end
  end.

Definition read_number (s : string) : option (Z * string) :=
  match s with
  | "" => None
  | String c r =>
      if Ascii.eqb c "-"%char then
        match read_uint r with
        | (Nil, _) => None
        | (u, rest) => Some (- Z.of_uint u, rest)
        end
      else
        match read_uint s with
        | (Nil, _) => None
        | (u, rest) => Some (Z.of_uint u, rest)
        end
  end.

Definition unescape (c : ascii) : option ascii :=
  if Ascii.eqb c "034"%char then Some "034"%char
  else if Ascii.eqb c "\"%char then Some "\"%char
  else if Ascii.eqb c "/"%char then Some "/"%char
  else if Ascii.eqb c "n"%char then Some "010"%char
  else if Ascii.eqb c "r"%char then Some "013"%char
  else if Ascii.eqb c "t"%char then Some "009"%char
  else if Ascii.eqb c "b"%char then Some "008"%char
  else if Ascii.eqb c "f"%char then Some "012"%char
  else None.

(** The characters of a string up to its closing quote. *)
Fixpoint read_string (s : string) : option (string * string) :=
  match s with
  | "" => None
  | String c r =>
      if Ascii.eqb c "034"%char then Some ("", r)
      else if Ascii.eqb c "\"%char then
        match r with
        | "" => None
        | String e r' =>
            match unescape e, read_string r' with
            | Some ch, Some (body, rest) => Some (String ch body, rest)
            | _, _ => None
            end
        end
      else
        match read_string r with
        | Some (body, rest) => Some (String c body, rest)
        | None => None
        end
  end.

Inductive start : Type :=
| SQuote | SArr | SObj | SNull | STrue | SFalse | SNumber | SOther.

Definition classify (c : ascii) : start :=
  if Ascii.eqb c "034"%char then SQuote
  else if Ascii.eqb c "["%char then SArr
  else if Ascii.eqb c "{"%char then SObj
  else if Ascii.eqb c "n"%char then SNull
  else if Ascii.eqb c "t"%char then STrue
  else if Ascii.eqb c "f"%char then SFalse
  else if Ascii.eqb c "-"%char then SNumber
  else match digit_of c with Some _ => SNumber | None => SOther end.

(** A comma-separated sequence up to its closing character, [rd] reading
    one item; at most [n] items. *)
Fixpoint read_seq {A} (rd : string → option (A * string)) (close : ascii)
    (n : nat) (s : string) : option (list A * string) :=
  match n with
  | O => None
  | S n' =>
      match rd s with
      | None => None
      | Some (v, r) =>
          match skip_ws r with
          | "" => None
          | String c r' =>
              if Ascii.eqb c ","%char then
                match read_seq rd close n' r' with
                | Some (l, r'') => Some (v :: l, r'')
                | None => None
                end
              else if Ascii.eqb c close then Some ([v], r')
              else None
          end
      end
  end.

(** One member of an object: a quoted key, a colon, a value read by [pv]. *)
Definition read_member (pv : string → option (json * string)) (s : string)
    : option ((string * json) * string) :=
  match skip_ws s with
  | "" => None
  | String c r0 =>
      if Ascii.eqb c "034"%char then
        match read_string r0 with
        | None => None
        | Some (k, r1) =>
            match skip_ws r1 with
            | "" => None
            | String c' r2 =>
                if Ascii.eqb c' ":"%char then
                  match pv r2 with
                  | Some (v, r) => Some ((k, v), r)
                  | None => None
                  end
                else None
            end
        end
      else None
  end.

Fixpoint read_value (fuel : nat) (s : string) : option (json * string) :=
  match fuel with
  | O => None
  | S f =>
      match skip_ws s with
      | "" => None
      | String c r as s' =>
          match classify c with
          | SQuote =>
              match read_string r with
              | Some (str, rest) => Some (JStr str, rest)
              | None => None
              end
          | SArr =>
              match skip_ws r with
              | "" => None
              | String c' rest as r1 =>
                  if Ascii.eqb c' "]"%char then Some (JArr [], rest)
                  else
                    match read_seq (read_value f) "]"%char f r1 with
                    | Some (l, rest) => Some (JArr l, rest)
                    | None => None
                    end
              end
          | SObj =>
              match skip_ws r with
              | "" => None
              | String c' rest as r1 =>
                  if Ascii.eqb c' "}"%char then Some (JObj [], rest)
                  else
                    match
                      read_seq (read_member (read_value f)) "}"%char f r1
                    with
                    | Some (l, rest) => Some (JObj l, rest)
                    | None => None
                    end
              end
          | SNull =>
              match r with
              | String "u"%char (String "l"%char (String "l"%char rest)) => Some (JNull, rest)
              | _ => None
              end
          | STrue =>
              match r with
              | String "r"%char (String "u"%char (String "e"%char rest)) =>
                  Some (JBool true, rest)
              | _ => None
              end
          | SFalse =>
              match r with
              | String "a"%char (String "l"%char (String "s"%char (String "e"%char rest))) =>
                  Some (JBool false, rest)
              | _ => None
              end
          | SNumber =>
              match read_number s' with
              | Some (n, rest) => Some (JNum n, rest)
              | None => None
              end
          | SOther => None
          end
      end
  end.

(** [parse] reads one document and nothing but white space after it. *)
Definition parse (s : string) : option json :=
  match read_value (S (String.length s)) s with
  | Some (j, rest) => if decide (skip_ws rest = "") then Some j else None
  | None => None
  end.

(** *** Vocabulary for reading back what was written *)

(** One member of an object, written. *)
Definition print_member (kv : string * json) : string :=
  print_string kv.1 +:+ ":" +:+ print kv.2.

(** [l] written as a sequence of items closed by [close]. *)
Fixpoint print_seq {A} (pr : A → string) (close : string) (l : list A)
    : string :=
  match l with
  | [] => close
  | [x] => pr x +:+ close
  | x :: l' => pr x +:+ "," +:+ print_seq pr close l'
  end.

(** What may follow a number: anything but a digit. *)
Definition no_digit_head (s : string) : Prop :=
  match s with
  | "" => True
  | String c _ => digit_of c = None
  end.

End Json.

(* ===================================================================== *)
(** ** Base64 ([encoding/base64]), padded, over a 64-character alphabet *)
(* ===================================================================== *)

Module Base64.
Definition StdEncoding : string :=
  "ABCDEFGHIJKLMNOPQRSTUVWXYZabcdefghijklmnopqrstuvwxyz0123456789+/".

Definition URLEncoding : string :=
  "ABCDEFGHIJKLMNOPQRSTUVWXYZabcdefghijklmnopqrstuvwxyz0123456789-_".

Definition pad : ascii := "="%char.

(** The character of a 6-bit value. *)
Definition char_of (alphabet : string) (n : N) : ascii :=
  match String.get (N.to_nat n) alphabet with
  | Some c => c
  | None => pad
  end.

(** The 6-bit value of a character, if it is in the alphabet. *)
Fixpoint index_of (c : ascii) (alphabet : string) : option N :=
  match alphabet with
  | "" => None
  | String a r =>
      if Ascii.eqb a c then Some 0%N else N.succ <$> index_of c r
  end.

Fixpoint EncodeToString (alphabet : string) (src : string) : string :=
  match src with
  | "" => ""
  | String a "" =>
      let x := N_of_ascii a in
      String (char_of alphabet (x / 4))
        (String (char_of alphabet (x mod 4 * 16)) (String pad (String pad "")))
  | String a (String b "") =>
      let x := N_of_ascii a in
      let y := N_of_ascii b in
      String (char_of alphabet (x / 4))
        (String (char_of alphabet (x mod 4 * 16 + y / 16))
           (String (char_of alphabet (y mod 16 * 4)) (String pad "")))
  | String a (String b (String c r)) =>
      let x := N_of_ascii a in
      let y := N_of_ascii b in
      let z := N_of_ascii c in
      String (char_of alphabet (x / 4))
        (String (char_of alphabet (x mod 4 * 16 + y / 16))
           (String (char_of alphabet (y mod 16 * 4 + z / 64))
              (String (char_of alphabet (z mod 64))
                 (EncodeToString alphabet r))))
  end%N.

(** Line breaks are skipped by the decoder. *)
Fixpoint strip_newlines (s : string) : string :=
  match s with
  | "" => ""
  | String c r =>
      if Ascii.eqb c "010"%char || Ascii.eqb c "013"%char
      then strip_newlines r
      else String c (strip_newlines r)
  end.

Fixpoint decode_quads (alphabet : string) (s : string) : option string :=
  match s with
  | "" => Some ""
  | String a (String b (String c (String d r))) =>
      match index_of a alphabet, index_of b alphabet with
      | Some x, Some y =>
          let b1 := ascii_of_N (x * 4 + y / 16) in
          if Ascii.eqb c pad then
            if Ascii.eqb d pad && bool_decide (r = "")
            then Some (String b1 "")
            else None
          else
            match index_of c alphabet with
            | None => None
            | Some z =>
                let b2 := ascii_of_N (y mod 16 * 16 + z / 4) in
                if Ascii.eqb d pad then
                  if bool_decide (r = "")
                  then Some (String b1 (String b2 ""))
                  else None
                else
                  match index_of d alphabet, decode_quads alphabet r with
                  | Some w, Some rest =>
                      let b3 := ascii_of_N (z mod 4 * 64 + w) in
                      Some (String b1 (String b2 (String b3 rest)))
                  | _, _ => None
                  end
            end
      | _, _ => None
      end
  | _ => None
  end%N.

(** [DecodeString]: [None] stands for a [CorruptInputError]. *)
Definition DecodeString (alphabet : string) (s : string) : option string :=
  decode_quads alphabet (strip_newlines s).

End Base64.

(* ===================================================================== *)
(** ** Dynamically typed values ([interface{}]) and their JSON form

    A session holds [map[string]interface{}]. The values that occur are
    modelled by the kinds below. [json.Marshal] writes both integer kinds
    and [float64] as a JSON number and fails on a function value;
    [json.Unmarshal] into an [interface{}] always yields [float64] for a
    number, [[]interface{}] for an array and [map[string]interface{}] for
    an object. A [float64] is represented by the integer it holds. *)
(* ===================================================================== *)

Module Dyn.
Import Json.

#[local] Unset Elimination Schemes.
Inductive value : Type :=
| VNil
| VBool (b : bool)
| VInt (n : Z)
| VFloat64 (x : Z)
| VString (s : string)
| VSlice (l : list value)
| VMap (kvs : list (string * value))
| VFunc.
#[local] Set Elimination Schemes.

Section value_induction.
Variable P : value → Prop.
Hypothesis HNil : P VNil.
Hypothesis HBool : ∀ b, P (VBool b).
Hypothesis HInt : ∀ n, P (VInt n).
Hypothesis HFloat : ∀ x, P (VFloat64 x).
Hypothesis HString : ∀ s, P (VString s).
Hypothesis HSlice : ∀ l, Forall P l → P (VSlice l).
Hypothesis HMap : ∀ kvs, Forall (λ kv, P kv.2) kvs → P (VMap kvs).
Hypothesis HFunc : P VFunc.

Fixpoint value_nested_ind (v : value) : P v :=
  match v with
  | VNil => HNil
  | VBool b => HBool b
  | VInt n => HInt n
  | VFloat64 x => HFloat x
  | VString s => HString s
  | VSlice l =>
      HSlice l ((fix go (l : list value) : Forall P l :=
                   match l with
                   | [] => Forall_nil_2 P
                   | x :: l' => Forall_cons_2 P x l' (value_nested_ind x) (go l')
                   end) l)
  | VMap kvs =>
      HMap kvs ((fix go (l : list (string * value)) : Forall (λ kv, P kv.2) l :=
                   match l with
                   | [] => Forall_nil_2 _
                   | kv :: l' =>
                       Forall_cons_2 (λ kv, P kv.2) kv l'
                         (value_nested_ind kv.2) (go l')
                   end) kvs)
  | VFunc => HFunc
  end.
End value_induction.

(** All-or-nothing traversal of a list. *)
Fixpoint traverse {A B} (f : A → option B) (l : list A) : option (list B) :=
  match l with
  | [] => Some []
  | x :: l' =>
      match f x, traverse f l' with
      | Some y, Some ys => Some (y :: ys)
      | _, _ => None
      end
  end.

(** [json.Marshal] of a dynamic value; [None] is its UnsupportedTypeError. *)
Fixpoint marshal_value (v : value) : option json :=
  match v with
  | VNil => Some JNull
  | VBool b => Some (JBool b)
  | VInt n => Some (JNum n)
  | VFloat64 x => Some (JNum x)
  | VString s => Some (JStr s)
  | VSlice l =>
      JArr <$>
        (fix go (l : list value) : option (list json) :=
           match l with
           | [] => Some []
           | x :: l' =>
               match marshal_value x, go l' with
               | Some y, Some ys => Some (y :: ys)
               | _, _ => None
               end
           end) l
  | VMap kvs =>
      JObj <$>
        (fix go (l : list (string * value)) : option (list (string * json)) :=
           match l with
           | [] => Some []
           | kv :: l' =>
               match marshal_value kv.2, go l' with
               | Some y, Some ys => Some ((kv.1, y) :: ys)
               | _, _ => None
               end
           end) kvs
  | VFunc => None
  end.

(** [json.Unmarshal] into an [interface{}]. *)
Fixpoint unmarshal_value (j : json) : value :=
  match j with
  | JNull => VNil
  | JBool b => VBool b
  | JNum n => VFloat64 n
  | JStr s => VString s
  | JArr l => VSlice (map unmarshal_value l)
  | JObj kvs =>
      VMap ((fix go (l : list (string * json)) : list (string * value) :=
               match l with
               | [] => []
               | kv :: l' => (kv.1, unmarshal_value kv.2) :: go l'
               end) kvs)
  end.

(** Values made only of what [json.Unmarshal] itself produces. *)
Fixpoint json_native (v : value) : bool :=
  match v with
  | VNil | VBool _ | VFloat64 _ | VString _ => true
  | VInt _ | VFunc => false
  | VSlice l => forallb json_native l
  | VMap kvs =>
      (fix go (l : list (string * value)) : bool :=
         match l with
         | [] => true
         | kv :: l' => json_native kv.2 && go l'
         end) kvs
  end.

(** What a value becomes when written and read back. *)
Definition json_image (v : value) : option value :=
  unmarshal_value <$> marshal_value v.

End Dyn.

(* ===================================================================== *)
(** ** Errors and results *)
(* ===================================================================== *)

(** The error values the two packages return or pass on. *)
Inductive error : Type :=
| ErrSessionNotFound          (* session.ErrSessionNotFound *)
| ErrSessionExpired           (* session.ErrSessionExpired *)
| ErrCacheMiss                (* cache.ErrCacheMiss *)
| ErrCorruptInput             (* base64.CorruptInputError *)
| ErrUnsupportedType          (* json.UnsupportedTypeError *)
| ErrUnmarshal                (* json.SyntaxError, json.UnmarshalTypeError *)
| ErrWrongType                (* Redis: WRONGTYPE *)
| ErrHandler (msg : string).  (* an error reported by a handler or callback *)

#[global] Instance error_eq_dec : EqDecision error.
Proof. solve_decision. Defined.

Inductive result (A : Type) : Type :=
| Ok (a : A)
| Err (e : error).
Arguments Ok {A} a.
Arguments Err {A} e.

(* ===================================================================== *)
(** ** The Redis server, as seen through the go-redis client

    One key space; an entry is a string or a set and may carry a deadline,
    after which the key is no longer there. *)
(* ===================================================================== *)

Module Redis.
Import GoTime.

Inductive rvalue : Type :=
| RString (data : string)
| RSet (members : gset string).

Record entry : Type := Entry { payload : rvalue; deadline : option Z }.

Abbreviation db := (gmap string entry).

Definition live (now : Time) (e : entry) : bool :=
  match deadline e with
  | None => true
  | Some d => now <? d
  end.

(** The entry of a key that has not expired. *)
Definition find (now : Time) (d : db) (key : string) : option entry :=
  match d !! key with
  | Some e => if live now e then Some e else None
  | None => None
  end.

(** The client sends a positive expiration in milliseconds (at least one)
    or, when it is a whole number of seconds, in seconds. *)
Definition px (ttl : Duration) : Duration :=
  if ttl <? Millisecond then Millisecond
  else ttl / Millisecond * Millisecond.

(** [EXPIRE] takes whole seconds, at least one for a positive duration. *)
Definition ex (ttl : Duration) : Duration :=
  if (0 <? ttl) && (ttl <? Second) then Second
  else Z.quot ttl Second * Second.

Definition KeepTTL : Duration := -1.

(** [GET key]; [None] is [redis.Nil]. *)
Definition Get (now : Time) (d : db) (key : string)
    : result (option string) :=
  match find now d key with
  | None => Ok None
  | Some (Entry (RString s) _) => Ok (Some s)
  | Some (Entry (RSet _) _) => Err ErrWrongType
  end.

(** [SET key value] with the client's treatment of [expiration]. *)
Definition Set_ (now : Time) (d : db) (key : string) (value : string)
    (expiration : Duration) : db :=
  let dl :=
    if 0 <? expiration then Some (now + px expiration)
    else if expiration =? KeepTTL then
      match find now d key with
      | Some e => deadline e
      | None => None
      end
    else None in
  <[key := Entry (RString value) dl]> d.

(** [DEL key...] *)
Definition Del (d : db) (keys : list string) : db :=
  foldr delete d keys.

(** [SADD key member] *)
Definition SAdd (now : Time) (d : db) (key member : string)
    : db * result unit :=
  match find now d key with
  | None => (<[key := Entry (RSet {[member]}) None]> d, Ok ())
  | Some (Entry (RSet s) dl) =>
      (<[key := Entry (RSet ({[member]} ∪ s)) dl]> d, Ok ())
  | Some (Entry (RString _) _) => (d, Err ErrWrongType)
  end.

(** [SMEMBERS key] *)
Definition SMembers (now : Time) (d : db) (key : string)
    : result (list string) :=
  match find now d key with
  | None => Ok []
  | Some (Entry (RSet s) _) => Ok (elements s)
  | Some (Entry (RString _) _) => Err ErrWrongType
  end.

(** [EXPIRE key seconds] *)
Definition Expire (now : Time) (d : db) (key : string) (ttl : Duration)
    : db :=
  match find now d key with
  | None => d
  | Some e =>
      if ex ttl <=? 0 then delete key d
      else <[key := Entry (payload e) (Some (now + ex ttl))]> d
  end.

End Redis.

(* ===================================================================== *)
(** ** Package session: the session entity (store.go) *)
(* ===================================================================== *)

Module Session.
Import GoTime Json Dyn.

(** [type Session struct]; a nil [Data] map is [None]. *)
Record Session : Type := mkSession {
  ID : string;
  Data : option (gmap string value);
  CreatedAt : Z;
  ExpiresAt : Z;
  UpdatedAt : Z;
}.

Definition with_ID (s : Session) (id : string) : Session :=
  mkSession id (Data s) (CreatedAt s) (ExpiresAt s) (UpdatedAt s).
Definition with_Data (s : Session) (d : option (gmap string value)) : Session :=
  mkSession (ID s) d (CreatedAt s) (ExpiresAt s) (UpdatedAt s).
Definition with_CreatedAt (s : Session) (t : Z) : Session :=
  mkSession (ID s) (Data s) t (ExpiresAt s) (UpdatedAt s).
Definition with_ExpiresAt (s : Session) (t : Z) : Session :=
  mkSession (ID s) (Data s) (CreatedAt s) t (UpdatedAt s).
Definition with_UpdatedAt (s : Session) (t : Z) : Session :=
  mkSession (ID s) (Data s) (CreatedAt s) (ExpiresAt s) t.

(** [generateSessionID], from the 32 bytes that [rand.Read] delivered. *)
Definition generateSessionID (b : string) : string :=
  Base64.EncodeToString Base64.URLEncoding b.

(** [NewSession(maxAge)], with the clock reading and the random bytes. *)
Definition NewSession (now : Time) (b : string) (maxAge : Duration) : Session :=
  {| ID := generateSessionID b;
     Data := Some ∅;
     CreatedAt := now;
     ExpiresAt := Add now maxAge;
     UpdatedAt := now |}.

(** [s.IsExpired()], with the clock reading. *)
Definition IsExpired (now : Time) (s : Session) : bool :=
  After now (ExpiresAt s).

(** *** The session as JSON

    The struct tags give the member names; a timestamp is carried as its
    instant (the RFC 3339 text of [time.Time] is not modelled). *)

Definition marshal_Data (d : option (gmap string value)) : option json :=
  match d with
  | None => Some JNull
  | Some m =>
      JObj <$> traverse (λ kv, pair kv.1 <$> marshal_value kv.2) (map_to_list m)
  end.

Definition marshal_Session (s : Session) : option json :=
  match marshal_Data (Data s) with
  | None => None
  | Some d =>
      Some (JObj [("id", JStr (ID s)); ("data", d);
                  ("created_at", JNum (CreatedAt s));
                  ("expires_at", JNum (ExpiresAt s));
                  ("updated_at", JNum (UpdatedAt s))])
  end.

(** [json.Marshal(session)]: the text, or [None] for its error. *)
Definition Marshal (s : Session) : option string :=
  print <$> marshal_Session s.

(** Members of an object decoded into a map; a repeated key keeps its
    last value. *)
Definition obj_to_map (kvs : list (string * json)) (m0 : gmap string value)
    : gmap string value :=
  list_to_map (reverse (prod_map id unmarshal_value <$> kvs)) ∪ m0.

Definition unmarshal_time (v : json) (old : Z) : option Z :=
  match v with
  | JNum n => Some n
  | JNull => Some old
  | _ => None
  end.

(** One member of the object stored into the struct. Member names are
    compared exactly; [encoding/json] also accepts them in another
    letter case, which no document written by [Marshal] has. *)
Definition set_field (s : Session) (k : string) (v : json) : option Session :=
  if decide (k = "id") then
    match v with
    | JStr x => Some (with_ID s x)
    | JNull => Some s
    | _ => None
    end
  else if decide (k = "data") then
    match v with
    | JObj kvs => Some (with_Data s (Some (obj_to_map kvs (default ∅ (Data s)))))
    | JNull => Some (with_Data s None)
    | _ => None
    end
  else if decide (k = "created_at") then
    with_CreatedAt s <$> unmarshal_time v (CreatedAt s)
  else if decide (k = "expires_at") then
    with_ExpiresAt s <$> unmarshal_time v (ExpiresAt s)
  else if decide (k = "updated_at") then
    with_UpdatedAt s <$> unmarshal_time v (UpdatedAt s)
  else Some s.

(** The zero value of the struct. *)
Definition zero_Session : Session :=
  mkSession "" None GoTime.zero GoTime.zero GoTime.zero.

Definition unmarshal_Session (j : json) : option Session :=
  match j with
  | JNull => Some zero_Session
  | JObj kvs =>
      foldl (λ acc kv, acc ≫= λ s, set_field s kv.1 kv.2) (Some zero_Session) kvs
  | _ => None
  end.

(** [var session Session; json.Unmarshal(data, &session)] *)
Definition Unmarshal (data : string) : option Session :=
  parse data ≫= unmarshal_Session.

(** The value a session entry has after a trip through JSON. *)
Definition image (v : value) : value := default VNil (json_image v).

Definition image_Data (d : option (gmap string value))
    : option (gmap string value) :=
  match d with
  | Some m => Some (image <$> m)
  | None => None
  end.

Definition serialisable (s : Session) : Prop :=
  ∀ m k v, Data s = Some m → m !! k = Some v → is_Some (marshal_value v).

Definition native (s : Session) : Prop :=
  ∀ m k v, Data s = Some m → m !! k = Some v → json_native v = true.

End Session.

(* ===================================================================== *)
(** ** The running program: clock, heap, stores and the request context

    [goexpress.Context] is the surrounding framework's; it is modelled by
    what the two packages use of it: a key-value attachment point, the
    request's cookies, method and path, and the response being built. *)
(* ===================================================================== *)

Module Runtime.
Import GoTime Dyn.

Abbreviation loc := positive.

(** An [interface{}] held by the context. *)
Inductive any : Type :=
| ASession (p : loc)      (* a *Session *)
| AString (s : string)
| ADyn (v : value).

(** [http.Cookie], the fields the packages set. *)
Record Cookie : Type := mkCookie {
  Name : string;
  Value : string;
  Path : string;
  Domain : string;
  MaxAge : Z;
  Secure : bool;
  HttpOnly : bool;
  SameSite : Z;
}.

Definition SameSiteLaxMode : Z := 2.

Record Context : Type := mkContext {
  method : string;
  path : string;
  rawQuery : string;
  cookies : gmap string string;     (* cookies of the request *)
  locals : gmap string any;         (* c.Set / c.Get *)
  status : Z;                       (* c.Status *)
  headers : gmap string string;     (* c.SetHeader *)
  body : option string;             (* c.Send *)
  setCookies : list Cookie;         (* c.Cookie *)
}.

Record World : Type := mkWorld {
  clock : Z;                            (* time.Now() *)
  entropy : list string;                (* what rand.Read will deliver *)
  heap : gmap loc Session.Session;      (* the *Session objects *)
  sessions : gmap string loc;           (* MemoryStore.sessions *)
  redis : gmap string Redis.entry;      (* the Redis server *)
  ctx : Context;                        (* the request being served *)
}.

Definition with_heap (w : World) (h : gmap loc Session.Session) : World :=
  mkWorld (clock w) (entropy w) h (sessions w) (redis w) (ctx w).
Definition with_sessions (w : World) (m : gmap string loc) : World :=
  mkWorld (clock w) (entropy w) (heap w) m (redis w) (ctx w).
Definition with_redis (w : World) (d : gmap string Redis.entry) : World :=
  mkWorld (clock w) (entropy w) (heap w) (sessions w) d (ctx w).
Definition with_ctx (w : World) (c : Context) : World :=
  mkWorld (clock w) (entropy w) (heap w) (sessions w) (redis w) c.
Definition with_entropy (w : World) (e : list string) : World :=
  mkWorld (clock w) e (heap w) (sessions w) (redis w) (ctx w).
Definition with_clock (w : World) (t : Z) : World :=
  mkWorld t (entropy w) (heap w) (sessions w) (redis w) (ctx w).

Definition with_locals (c : Context) (l : gmap string any) : Context :=
  mkContext (method c) (path c) (rawQuery c) (cookies c) l (status c)
            (headers c) (body c) (setCookies c).
Definition with_status (c : Context) (n : Z) : Context :=
  mkContext (method c) (path c) (rawQuery c) (cookies c) (locals c) n
            (headers c) (body c) (setCookies c).
Definition with_headers (c : Context) (h : gmap string string) : Context :=
  mkContext (method c) (path c) (rawQuery c) (cookies c) (locals c) (status c)
            h (body c) (setCookies c).
Definition with_body (c : Context) (b : option string) : Context :=
  mkContext (method c) (path c) (rawQuery c) (cookies c) (locals c) (status c)
            (headers c) b (setCookies c).
Definition with_setCookies (c : Context) (l : list Cookie) : Context :=
  mkContext (method c) (path c) (rawQuery c) (cookies c) (locals c) (status c)
            (headers c) (body c) l.

(** *** Computations

    A computation runs on the world and either panics or returns a value,
    the new world and the number of callbacks (handlers, compute
    functions) it invoked on the way. *)

Inductive outcome (A : Type) : Type :=
| Panic
| Ret (a : A) (w : World) (calls : nat).
Arguments Panic {A}.
Arguments Ret {A} a w calls.

Definition M (A : Type) : Type := World → outcome A.

Definition ret {A} (a : A) : M A := λ w, Ret a w 0.

Definition bind {A B} (m : M A) (k : A → M B) : M B :=
  λ w, match m w with
       | Panic => Panic
       | Ret a w1 n1 =>
           match k a w1 with
           | Panic => Panic
           | Ret b w2 n2 => Ret b w2 (n1 + n2)
           end
       end.

Declare Scope go_scope.
Delimit Scope go_scope with go.
Notation "'let*' x ':=' m 'in' k" := (bind m (λ x, k))
  (at level 10, x name, m at level 100, k at level 200) : go_scope.
Notation "m >>> k" := (bind m (λ _, k))
  (at level 100, right associativity) : go_scope.
Local Open Scope go_scope.
Bind Scope go_scope with M.

Definition panic {A} : M A := λ _, Panic.
Definition get : M World := λ w, Ret w w 0.
Definition put (w : World) : M unit := λ _, Ret () w 0.
Definition modify (f : World → World) : M unit := λ w, Ret () (f w) 0.

(** A callback: a function of the program that the packages only call. *)
Definition callback (A : Type) : Type := World → option (A * World).

Definition invoke {A} (f : callback A) : M A :=
  λ w, match f w with
       | None => Panic
       | Some (a, w') => Ret a w' 1
       end.

(** [time.Now()] *)
Definition Now : M Z := λ w, Ret (clock w) w 0.

(** [rand.Read(b)] on a 32-byte buffer; the buffer stays zeroed when the
    source fails. *)
Definition zero32 : string :=
  Eval cbv in
    (fix rep (n : nat) : string :=
       match n with O => "" | S n' => String "000"%char (rep n') end) 32%nat.

Definition rand_Read : M string :=
  λ w, Ret (hd zero32 (entropy w)) (with_entropy w (tl (entropy w))) 0.

(** Following a pointer; a nil or dangling pointer panics. *)
Definition deref (p : loc) : M Session.Session :=
  λ w, match heap w !! p with
       | Some s => Ret s w 0
       | None => Panic
       end.

(** Writing through a pointer. *)
Definition assign (p : loc) (s : Session.Session) : M unit :=
  λ w, match heap w !! p with
       | Some _ => Ret () (with_heap w (<[p := s]> (heap w))) 0
       | None => Panic
       end.

(** [&Session{...}]: a fresh object. *)
Definition alloc (s : Session.Session) : M loc :=
  λ w, let p := fresh (dom (heap w)) in
       Ret p (with_heap w (<[p := s]> (heap w))) 0.

(** *** The context's methods *)

Definition c_Set (key : string) (v : any) : M unit :=
  modify (λ w, with_ctx w (with_locals (ctx w) (<[key := v]> (locals (ctx w))))).

Definition c_Get (key : string) : M (option any) :=
  λ w, Ret (locals (ctx w) !! key) w 0.

Definition c_GetCookie (name : string) : M (option string) :=
  λ w, Ret (cookies (ctx w) !! name) w 0.

Definition c_Cookie (ck : Cookie) : M unit :=
  modify (λ w, with_ctx w (with_setCookies (ctx w) (setCookies (ctx w) ++ [ck]))).

Definition c_Method : M string := λ w, Ret (method (ctx w)) w 0.
Definition c_Path : M string := λ w, Ret (path (ctx w)) w 0.

Definition c_SetHeader (k v : string) : M unit :=
  modify (λ w, with_ctx w (with_headers (ctx w) (<[k := v]> (headers (ctx w))))).

Definition c_Status (code : Z) : M unit :=
  modify (λ w, with_ctx w (with_status (ctx w) code)).

Definition c_Send (b : option string) : M (option error) :=
  modify (λ w, with_ctx w (with_body (ctx w) b)) >>> ret None.

End Runtime.

(* ===================================================================== *)
(** ** Package session: the three stores (store.go, redis.go) *)
(* ===================================================================== *)

Module SessionStore.
Import GoTime Dyn Session Runtime.
Local Open Scope go_scope.

(** [type Store interface] *)
Record Store : Type := mkStore {
  Get : string → M (result loc);
  Set_ : loc → M (option error);
  Delete : string → M (option error);
  Cleanup : M (option error);
  Touch : string → M (option error);
}.

(** *** Methods of [*Session] *)

(** [s.IsExpired()] *)
Definition Session_IsExpired (p : loc) : M bool :=
  let* s := deref p in
  let* now := Now in
  ret (IsExpired now s).

(** [s.Set(key, value)]; assigning into a nil map panics. *)
Definition Session_Set (p : loc) (key : string) (v : value) : M unit :=
  let* s := deref p in
  match Data s with
  | None => panic
  | Some m =>
      assign p (with_Data s (Some (<[key := v]> m))) >>>
      let* now := Now in
      let* s := deref p in
      assign p (with_UpdatedAt s now)
  end.

(** [s.Get(key)] *)
Definition Session_Get (p : loc) (key : string) : M (value * bool) :=
  let* s := deref p in
  match Data s ≫= (.!! key) with
  | Some v => ret (v, true)
  | None => ret (VNil, false)
  end.

(** [s.Delete(key)]; deleting from a nil map does nothing. *)
Definition Session_Delete (p : loc) (key : string) : M unit :=
  let* s := deref p in
  assign p (with_Data s (delete key <$> Data s)) >>>
  let* now := Now in
  let* s := deref p in
  assign p (with_UpdatedAt s now).

(** [s.Clear()] *)
Definition Session_Clear (p : loc) : M unit :=
  let* s := deref p in
  assign p (with_Data s (Some ∅)) >>>
  let* now := Now in
  let* s := deref p in
  assign p (with_UpdatedAt s now).

(** *** MemoryStore *)

Definition MemoryStore_Get (id : string) : M (result loc) :=
  let* w := get in
  match sessions w !! id with
  | None => ret (Err ErrSessionNotFound)
  | Some session =>
      let* expired := Session_IsExpired session in
      if expired then ret (Err ErrSessionExpired)
      else ret (Ok session)
  end.

Definition MemoryStore_Set (session : loc) : M (option error) :=
  let* s := deref session in
  modify (λ w, with_sessions w (<[ID s := session]> (sessions w))) >>>
  ret None.

Definition MemoryStore_Delete (id : string) : M (option error) :=
  modify (λ w, with_sessions w (delete id (sessions w))) >>>
  ret None.

Definition MemoryStore_Touch (id : string) : M (option error) :=
  let* w := get in
  match sessions w !! id with
  | None => ret (Some ErrSessionNotFound)
  | Some session =>
      let* s := deref session in
      let* now := Now in
      assign session (with_UpdatedAt s now) >>>
      ret None
  end.

(** A table entry stays unless its session's expiry has passed. *)
Definition stays (now : Z) (h : gmap loc Session) (session : loc) : bool :=
  match h !! session with
  | Some s => negb (After now (ExpiresAt s))
  | None => true
  end.

Definition MemoryStore_Cleanup : M (option error) :=
  let* now := Now in
  let* w := get in
  if bool_decide (map_Forall (λ _ session, is_Some (heap w !! session))
                             (sessions w))
  then
    modify (λ w, with_sessions w
                   (filter (λ kv, stays now (heap w) kv.2 = true) (sessions w)))
    >>> ret None
  else panic.

Definition MemoryStore : Store :=
  mkStore MemoryStore_Get MemoryStore_Set MemoryStore_Delete
          MemoryStore_Cleanup MemoryStore_Touch.

(** *** CookieStore *)

Definition CookieStore_Get (cookieValue : string) : M (result loc) :=
  if decide (cookieValue = "") then ret (Err ErrSessionNotFound)
  else
    match Base64.DecodeString Base64.StdEncoding cookieValue with
    | None => ret (Err ErrCorruptInput)
    | Some data =>
        match Unmarshal data with
        | None => ret (Err ErrUnmarshal)
        | Some session =>
            let* now := Now in
            if IsExpired now session then ret (Err ErrSessionExpired)
            else
              let* p := alloc session in
              ret (Ok p)
        end
    end.

Definition CookieStore_Set (session : loc) : M (option error) := ret None.
Definition CookieStore_Delete (id : string) : M (option error) := ret None.
Definition CookieStore_Touch (id : string) : M (option error) := ret None.
Definition CookieStore_Cleanup : M (option error) := ret None.

Definition CookieStore_Encode (session : loc) : M (result string) :=
  let* s := deref session in
  match Marshal s with
  | None => ret (Err ErrUnsupportedType)
  | Some data => ret (Ok (Base64.EncodeToString Base64.StdEncoding data))
  end.

Definition CookieStore : Store :=
  mkStore CookieStore_Get CookieStore_Set CookieStore_Delete
          CookieStore_Cleanup CookieStore_Touch.

(** *** RedisStore, with its key prefix *)

Section RedisStore.
Variable prefix : string.

Definition RedisStore_Delete (id : string) : M (option error) :=
  let key := prefix +:+ id in
  modify (λ w, with_redis w (Redis.Del (redis w) [key])) >>>
  ret None.

Definition RedisStore_Get (id : string) : M (result loc) :=
  let key := prefix +:+ id in
  let* w := get in
  match Redis.Get (clock w) (redis w) key with
  | Ok None => ret (Err ErrSessionNotFound)
  | Err e => ret (Err e)
  | Ok (Some data) =>
      match Unmarshal data with
      | None => ret (Err ErrUnmarshal)
      | Some session =>
          let* now := Now in
          if IsExpired now session then
            RedisStore_Delete id >>>
            ret (Err ErrSessionExpired)
          else
            let* p := alloc session in
            ret (Ok p)
      end
  end.

Definition RedisStore_Set (session : loc) : M (option error) :=
  let* s := deref session in
  let key := prefix +:+ ID s in
  match Marshal s with
  | None => ret (Some ErrUnsupportedType)
  | Some data =>
      let* now := Now in
      let ttl := Until now (ExpiresAt s) in
      if ttl <=? 0 then ret (Some ErrSessionExpired)
      else
        modify (λ w, with_redis w
                       (Redis.Set_ (clock w) (redis w) key data ttl)) >>>
        ret None
  end.

Definition RedisStore_Touch (id : string) : M (option error) :=
  let* r := RedisStore_Get id in
  match r with
  | Err e => ret (Some e)
  | Ok session =>
      let* s := deref session in
      let* now := Now in
      assign session (with_UpdatedAt s now) >>>
      RedisStore_Set session
  end.

Definition RedisStore_Cleanup : M (option error) := ret None.

Definition RedisStore_SetWithTTL (session : loc) (ttl : Duration)
    : M (option error) :=
  let* s := deref session in
  let key := prefix +:+ ID s in
  match Marshal s with
  | None => ret (Some ErrUnsupportedType)
  | Some data =>
      modify (λ w, with_redis w
                     (Redis.Set_ (clock w) (redis w) key data ttl)) >>>
      ret None
  end.

Definition RedisStore : Store :=
  mkStore RedisStore_Get RedisStore_Set RedisStore_Delete
          RedisStore_Cleanup RedisStore_Touch.
End RedisStore.

End SessionStore.

(* ===================================================================== *)
(** ** Package session: the middleware (middleware.go) *)
(* ===================================================================== *)

Module SessionMiddleware.
Import GoTime Dyn Session Runtime SessionStore.
Local Open Scope go_scope.

(** [type Config struct]; a nil [Store] is [None]. *)
Record Config : Type := mkConfig {
  Store_ : option Store;
  CookieName : string;
  CookiePath : string;
  CookieDomain : string;
  MaxAge_ : Duration;
  Secure_ : bool;
  HttpOnly_ : bool;
  SameSite_ : Z;
  ContextKey : string;
}.

Definition DefaultConfig (store : option Store) : Config :=
  {| Store_ := store;
     CookieName := "session_id";
     CookiePath := "/";
     CookieDomain := "";
     MaxAge_ := 24 * Hour;
     HttpOnly_ := true;
     Secure_ := false;
     SameSite_ := SameSiteLaxMode;
     ContextKey := "session" |}.

(** [int(d.Seconds())] *)
Definition seconds (d : Duration) : Z := Z.quot d Second.

Definition session_cookie (config : Config) (value : string) : Cookie :=
  {| Name := CookieName config;
     Value := value;
     Path := CookiePath config;
     Domain := CookieDomain config;
     MaxAge := seconds (MaxAge_ config);
     Secure := Secure_ config;
     HttpOnly := HttpOnly_ config;
     SameSite := SameSite_ config |}.

(** The defaults that [Middleware] fills in before it builds the handler. *)
Definition normalise (config : Config) : Config :=
  let name := if decide (CookieName config = "") then "session_id"
              else CookieName config in
  let key := if decide (ContextKey config = "") then "session"
             else ContextKey config in
  let age := if MaxAge_ config =? 0 then 24 * Hour else MaxAge_ config in
  mkConfig (Store_ config) name (CookiePath config) (CookieDomain config)
           age (Secure_ config) (HttpOnly_ config) (SameSite_ config) key.

(** [NewSession(maxAge)] as a computation: it reads the clock, draws the
    identifier and allocates the session. *)
Definition NewSession_ (maxAge : Duration) : M loc :=
  let* now := Now in
  let* b := rand_Read in
  alloc (NewSession now b maxAge).

(** The first half of the handler that [Middleware] returns: resolve or
    create the session and expose it. [Err] is the early return. *)
Definition resolve (config : Config) (store : Store) : M (result loc) :=
  let* cookie := c_GetCookie (CookieName config) in
  let* found :=
    match cookie with
    | Some value =>
        if decide (value ≠ "") then
          let* r := Get store value in
          match r with
          | Ok session => ret (Some session)
          | Err _ => ret None
          end
        else ret None
    | None => ret None
    end in
  let* r :=
    match found with
    | None =>
        let* session := NewSession_ (MaxAge_ config) in
        let* err := Set_ store session in
        match err with
        | Some e => ret (Err e)
        | None => ret (Ok session)
        end
    | Some session =>
        let* s := deref session in
        Touch store (ID s) >>>
        ret (Ok session)
    end in
  match r with
  | Err e => ret (Err e)
  | Ok session =>
      let* s := deref session in
      c_Set (ContextKey config) (ASession session) >>>
      c_Set "session_id" (AString (ID s)) >>>
      ret (Ok session)
  end.

(** The second half: after the handler, save the session found under the
    configured key and issue the cookie. *)
Definition persist (config : Config) (store : Store) (err : option error)
    : M (option error) :=
  let* sessionData := c_Get (ContextKey config) in
  match sessionData with
  | Some (ASession sess) =>
      let* s := deref sess in
      let* now := Now in
      assign sess (with_ExpiresAt s (Add now (MaxAge_ config))) >>>
      let* e := Set_ store sess in
      match e with
      | Some e => ret (Some e)
      | None =>
          let* s := deref sess in
          c_Cookie (session_cookie config (ID s)) >>>
          ret err
      end
  | _ => ret err
  end.

(** [Middleware(config)(next)(c)] *)
Definition Middleware (config : Config) (next : callback (option error))
    : M (option error) :=
  match Store_ config with
  | None => panic
  | Some store =>
      let config := normalise config in
      let* r := resolve config store in
      match r with
      | Err e => ret (Some e)
      | Ok _ =>
          let* err := invoke next in
          persist config store err
      end
  end.

(** [GetSession(c)] *)
Definition GetSession : M (result loc) :=
  let* session := c_Get "session" in
  match session with
  | Some (ASession sess) => ret (Ok sess)
  | _ => ret (Err ErrSessionNotFound)
  end.

(** [config.Store]; calling a method of a nil interface panics. *)
Definition the_store (config : Config) : M Store :=
  match Store_ config with
  | Some store => ret store
  | None => panic
  end.

(** [DestroySession(c, config)] *)
Definition DestroySession (config : Config) : M (option error) :=
  let* r := GetSession in
  match r with
  | Err e => ret (Some e)
  | Ok session =>
      let* s := deref session in
      let* store := the_store config in
      let* err := Delete store (ID s) in
      match err with
      | Some e => ret (Some e)
      | None =>
          c_Cookie {| Name := CookieName config; Value := "";
                      Path := CookiePath config; Domain := "";
                      MaxAge := -1; Secure := false; HttpOnly := true;
                      SameSite := 0 |} >>>
          ret None
      end
  end.

(** [RegenerateSession(c, config)] up to and including the save of the new
    session: the old and the new session, or the error it returns early
    with. *)
Definition regenerate_save (config : Config) : M (result (loc * loc)) :=
  let* r := GetSession in
  match r with
  | Err e => ret (Err e)
  | Ok oldSession =>
      let* newSession := NewSession_ (MaxAge_ config) in
      let* old := deref oldSession in
      let* new := deref newSession in
      assign newSession (with_Data new (Data old)) >>>
      let* store := the_store config in
      let* err := Set_ store newSession in
      match err with
      | Some e => ret (Err e)
      | None => ret (Ok (oldSession, newSession))
      end
  end.

(** The rest of [RegenerateSession]: delete the old session, update the
    context, set the cookie. *)
Definition regenerate_switch (config : Config) (oldSession newSession : loc)
    : M (option error) :=
  let* old := deref oldSession in
  let* store := the_store config in
  Delete store (ID old) >>>
  let* new := deref newSession in
  c_Set (ContextKey config) (ASession newSession) >>>
  c_Set "session_id" (AString (ID new)) >>>
  c_Cookie (session_cookie config (ID new)) >>>
  ret None.

Definition RegenerateSession (config : Config) : M (option error) :=
  let* r := regenerate_save config in
  match r with
  | Err e => ret (Some e)
  | Ok (oldSession, newSession) =>
      regenerate_switch config oldSession newSession
  end.

(** [Flash(c, key, value)] *)
Definition Flash (key : string) (v : value) : M (option error) :=
  let* r := GetSession in
  match r with
  | Err e => ret (Some e)
  | Ok session =>
      let flashKey := "_flash_" +:+ key in
      Session_Set session flashKey v >>>
      ret None
  end.

(** [GetFlash(c, key)] *)
Definition GetFlash (key : string) : M (value * bool) :=
  let* r := GetSession in
  match r with
  | Err _ => ret (VNil, false)
  | Ok session =>
      let flashKey := "_flash_" +:+ key in
      let* r := Session_Get session flashKey in
      (if r.2 then Session_Delete session flashKey else ret ()) >>>
      ret r
  end.

End SessionMiddleware.

(* ===================================================================== *)
(** ** Package cache: the Redis cache and its tags (cache.go) *)
(* ===================================================================== *)

Module Cache.
Import GoTime Json Dyn Runtime.
Local Open Scope go_scope.

(** [type RedisCache struct]: the client is the world's Redis server. *)
Record RedisCache : Type := mkRedisCache { prefix : string }.

Section RedisCache.
Variable r : RedisCache.

(** [r.Get(key, dest)]: [dec] is [json.Unmarshal] into the type of [dest];
    [Ok d] is a nil error with [dest] holding [d]. *)
Definition RedisCache_Get {D} (dec : json → option D) (key : string)
    : M (result D) :=
  let fullKey := prefix r +:+ key in
  let* w := get in
  match Redis.Get (clock w) (redis w) fullKey with
  | Ok None => ret (Err ErrCacheMiss)
  | Err e => ret (Err e)
  | Ok (Some data) =>
      match parse data ≫= dec with
      | None => ret (Err ErrUnmarshal)
      | Some d => ret (Ok d)
      end
  end.

(** [r.Set(key, value, ttl)]: [enc] is [json.Marshal] at the type of
    [value]. *)
Definition RedisCache_Set {V} (enc : V → option json) (key : string)
    (value : V) (ttl : Duration) : M (option error) :=
  let fullKey := prefix r +:+ key in
  match enc value with
  | None => ret (Some ErrUnsupportedType)
  | Some j =>
      modify (λ w, with_redis w
                     (Redis.Set_ (clock w) (redis w) fullKey (print j) ttl)) >>>
      ret None
  end.

(** [r.Delete(key)] *)
Definition RedisCache_Delete (key : string) : M (option error) :=
  let fullKey := prefix r +:+ key in
  modify (λ w, with_redis w (Redis.Del (redis w) [fullKey])) >>>
  ret None.

(** [r.DeleteMany(keys...)] *)
Definition RedisCache_DeleteMany (keys : list string) : M (option error) :=
  let fullKeys := (λ key, prefix r +:+ key) <$> keys in
  modify (λ w, with_redis w (Redis.Del (redis w) fullKeys)) >>>
  ret None.

(** [r.Remember(key, ttl, fn, dest)] *)
Definition RedisCache_Remember {D} (dec : json → option D) (key : string)
    (ttl : Duration) (fn : callback (result value)) : M (result D) :=
  let* hit := RedisCache_Get dec key in
  match hit with
  | Ok d => ret (Ok d)
  | Err err =>
      if decide (err ≠ ErrCacheMiss) then ret (Err err)
      else
        let* computed := invoke fn in
        match computed with
        | Err err => ret (Err err)
        | Ok v =>
            let* err := RedisCache_Set marshal_value key v ttl in
            match err with
            | Some err => ret (Err err)
            | None =>
                match marshal_value v with
                | None => ret (Err ErrUnsupportedType)
                | Some data =>
                    match parse (print data) ≫= dec with
                    | None => ret (Err ErrUnmarshal)
                    | Some d => ret (Ok d)
                    end
                end
            end
        end
  end.
End RedisCache.

(** [type TaggedCache struct] *)
Record TaggedCache : Type := mkTaggedCache {
  cache : RedisCache;
  tags : list string;
  tag_prefix : string;
}.

(** [r.Tags(tags...)] *)
Definition Tags (r : RedisCache) (tags : list string) : TaggedCache :=
  {| cache := r; tags := tags; tag_prefix := "tag:" |}.

(** One round of the loop of [t.Set]. *)
Definition TaggedCache_Set_tag (t : TaggedCache) (key : string)
    (ttl : Duration) (tag : string) : M unit :=
  let tagKey := tag_prefix t +:+ tag in
  modify (λ w, with_redis w (Redis.SAdd (clock w) (redis w) tagKey key).1) >>>
  if 0 <? ttl then
    modify (λ w, with_redis w (Redis.Expire (clock w) (redis w) tagKey ttl))
  else ret ().

Fixpoint for_each {A} (f : A → M unit) (l : list A) : M unit :=
  match l with
  | [] => ret ()
  | x :: l' => f x >>> for_each f l'
  end.

(** [t.Set(key, value, ttl)] *)
Definition TaggedCache_Set {V} (t : TaggedCache) (enc : V → option json)
    (key : string) (value : V) (ttl : Duration) : M (option error) :=
  let* err := RedisCache_Set (cache t) enc key value ttl in
  match err with
  | Some err => ret (Some err)
  | None =>
      for_each (TaggedCache_Set_tag t key ttl) (tags t) >>>
      ret None
  end.

(** One round of the loop of [t.Flush]; [Some err] is its early return. *)
Definition TaggedCache_Flush_tag (t : TaggedCache) (tag : string)
    : M (option error) :=
  let tagKey := tag_prefix t +:+ tag in
  let* w := get in
  match Redis.SMembers (clock w) (redis w) tagKey with
  | Err err => ret (Some err)
  | Ok keys =>
      (if (0 <? length keys)%nat then
         let fullKeys := (λ key, prefix (cache t) +:+ key) <$> keys in
         modify (λ w, with_redis w (Redis.Del (redis w) fullKeys))
       else ret ()) >>>
      modify (λ w, with_redis w (Redis.Del (redis w) [tagKey])) >>>
      ret None
  end.

(** A loop that returns at the first error. *)
Fixpoint until_error {A} (f : A → M (option error)) (l : list A)
    : M (option error) :=
  match l with
  | [] => ret None
  | x :: l' =>
      let* err := f x in
      match err with
      | Some err => ret (Some err)
      | None => until_error f l'
      end
  end.

(** [t.Flush()] *)
Definition TaggedCache_Flush (t : TaggedCache) : M (option error) :=
  until_error (TaggedCache_Flush_tag t) (tags t).

End Cache.

(* ===================================================================== *)
(** ** Package cache: the middleware (middleware.go) *)
(* ===================================================================== *)

Module CacheMiddleware.
Import GoTime Json Dyn Runtime Cache.
Local Open Scope go_scope.

(** [type CachedResponse struct]; a nil map or slice is [None]. *)
Record CachedResponse : Type := mkCachedResponse {
  Status : Z;
  Headers : option (gmap string string);
  Body : option string;
}.

(** [type responseRecorder struct]; [Context] is the request's context. *)
Record responseRecorder : Type := mkRecorder {
  rec_status : Z;
  rec_headers : option (gmap string string);
  rec_body : option string;
}.

(** [json.Marshal] of a [CachedResponse]: a byte slice is written as the
    base64 of its bytes. *)
Definition marshal_CachedResponse (c : CachedResponse) : option json :=
  Some (JObj [("status", JNum (Status c));
              ("headers",
               match Headers c with
               | None => JNull
               | Some h => JObj (prod_map id JStr <$> map_to_list h)
               end);
              ("body",
               match Body c with
               | None => JNull
               | Some b => JStr (Base64.EncodeToString Base64.StdEncoding b)
               end)]).

Definition unmarshal_header (kv : string * json) : option (string * string) :=
  match kv.2 with
  | JStr v => Some (kv.1, v)
  | JNull => Some (kv.1, "")
  | _ => None
  end.

Definition set_member (c : CachedResponse) (k : string) (v : json)
    : option CachedResponse :=
  if decide (k = "status") then
    match v with
    | JNum n => Some (mkCachedResponse n (Headers c) (Body c))
    | JNull => Some c
    | _ => None
    end
  else if decide (k = "headers") then
    match v with
    | JObj kvs =>
        match traverse unmarshal_header kvs with
        | Some l =>
            Some (mkCachedResponse (Status c)
                    (Some (list_to_map (reverse l) ∪ default ∅ (Headers c)))
                    (Body c))
        | None => None
        end
    | JNull => Some (mkCachedResponse (Status c) None (Body c))
    | _ => None
    end
  else if decide (k = "body") then
    match v with
    | JStr b =>
        match Base64.DecodeString Base64.StdEncoding b with
        | Some bytes => Some (mkCachedResponse (Status c) (Headers c) (Some bytes))
        | None => None
        end
    | JNull => Some (mkCachedResponse (Status c) (Headers c) None)
    | _ => None
    end
  else Some c.

(** [var cached CachedResponse; json.Unmarshal(data, &cached)] *)
Definition unmarshal_CachedResponse (j : json) : option CachedResponse :=
  match j with
  | JNull => Some (mkCachedResponse 0 None None)
  | JObj kvs =>
      foldl (λ acc kv, acc ≫= λ c, set_member c kv.1 kv.2)
            (Some (mkCachedResponse 0 None None)) kvs
  | _ => None
  end.

(** [type CacheConfig struct]; a nil interface, function or slice is
    [None]. The key and skip functions read the context. *)
Record CacheConfig : Type := mkCacheConfig {
  Cache_ : option RedisCache;
  TTL : Duration;
  KeyFunc : option (Context → string);
  SkipFunc : option (Context → bool);
  OnlyStatus : option (list Z);
}.

Definition default_key (c : Context) : string :=
  method c +:+ ":" +:+ path c.

Definition DefaultCacheConfig (cache : option RedisCache) : CacheConfig :=
  {| Cache_ := cache;
     TTL := 5 * Minute;
     OnlyStatus := Some [200];
     KeyFunc := Some default_key;
     SkipFunc := None |}.

(** The replay of a cached response. *)
Definition replay (cached : CachedResponse) : M (option error) :=
  for_each (λ kv, c_SetHeader kv.1 kv.2)
           (map_to_list (default ∅ (Headers cached))) >>>
  c_Status (Status cached) >>>
  c_Send (Body cached).

(** [Middleware(config)(next)(c)]. The recorder is created with the
    request's context and empty headers; the handler is called with
    [recorder.Context], which is the request's context itself. *)
Definition Middleware (config : CacheConfig) (next : callback (option error))
    : M (option error) :=
  match Cache_ config with
  | None => panic
  | Some cache =>
      let keyFunc := default default_key (KeyFunc config) in
      let onlyStatus := default [200] (OnlyStatus config) in
      let* w := get in
      let c := ctx w in
      if match SkipFunc config with Some skip => skip c | None => false end
      then invoke next
      else if bool_decide (method c ≠ "GET") && bool_decide (method c ≠ "HEAD")
      then invoke next
      else
        let key := keyFunc c in
        let* hit := RedisCache_Get cache unmarshal_CachedResponse key in
        match hit with
        | Ok cached => replay cached
        | Err _ =>
            let recorder := mkRecorder 0 (Some ∅) None in
            let* err := invoke next in
            match err with
            | Some err => ret (Some err)
            | None =>
                let shouldCache :=
                  existsb (λ status, rec_status recorder =? status) onlyStatus in
                (if shouldCache && bool_decide (rec_body recorder ≠ None) then
                   let cached :=
                     mkCachedResponse (rec_status recorder)
                                      (rec_headers recorder)
                                      (rec_body recorder) in
                   RedisCache_Set cache marshal_CachedResponse key cached
                                  (TTL config) >>>
                   ret ()
                 else ret ()) >>>
                ret None
            end
        end
  end.

End CacheMiddleware.

(* ===================================================================== *)
(** * Vocabulary of the properties and sample worlds *)
(* ===================================================================== *)

Module Vocabulary.
Import GoTime Json Dyn Session Runtime SessionStore SessionMiddleware Cache
  CacheMiddleware.
Local Open Scope go_scope.

(** ** Computations *)

(** A computation that leaves the request context alone. *)
Definition keeps_ctx {A} (m : M A) : Prop :=
  ∀ w a w' n, m w = Ret a w' n → ctx w' = ctx w.

(** The rest of what [Middleware] does once the session is resolved:
    [n] callbacks were invoked so far. *)
Definition continue_with (n : nat) (m : M (option error)) (w : World)
    : outcome (option error) :=
  match m w with
  | Panic => Panic
  | Ret e w' n' => Ret e w' (n + n')
  end.

(** ** The three backends *)

Inductive backend : Type :=
| Memory
| Cookie
| Redis_ (prefix : string).

Definition store_of (b : backend) : Store :=
  match b with
  | Memory => MemoryStore
  | Cookie => CookieStore
  | Redis_ prefix => RedisStore prefix
  end.


(** Whether the backend holds a record under the identifier; the cookie
    backend holds none. *)
Definition stored (b : backend) (w : World) (id : string) : Prop :=
  match b with
  | Memory => is_Some (sessions w !! id)
  | Cookie => False
  | Redis_ prefix =>
      is_Some (Redis.find (clock w) (redis w) (prefix +:+ id))
  end.


(** A backend holds, under [id], a record whose expiry has passed. For
    the cookie backend the record is the cookie value itself. *)
Definition holds_expired (b : backend) (w : World) (id : string) : Prop :=
  match b with
  | Memory =>
      ∃ p s, sessions w !! id = Some p ∧ heap w !! p = Some s ∧
             IsExpired (clock w) s = true
  | Cookie =>
      ∃ data s, id ≠ "" ∧
                Base64.DecodeString Base64.StdEncoding id = Some data ∧
                Unmarshal data = Some s ∧ IsExpired (clock w) s = true
  | Redis_ prefix =>
      ∃ data s, Redis.Get (clock w) (redis w) (prefix +:+ id) = Ok (Some data) ∧
                Unmarshal data = Some s ∧ IsExpired (clock w) s = true
  end.

(** ** Regenerating a session *)




(** ** The cache *)

(** What [r.Get(key, dest)] returns in a world. *)
Definition cache_lookup {D} (r : RedisCache) (dec : json → option D)
    (key : string) (w : World) : result D :=
  match Redis.Get (clock w) (redis w) (prefix r +:+ key) with
  | Ok None => Err ErrCacheMiss
  | Err e => Err e
  | Ok (Some data) =>
      match parse data ≫= dec with
      | None => Err ErrUnmarshal
      | Some d => Ok d
      end
  end.

(** What one call of [Remember] does, by the outcome of its lookup. *)
Definition remembers {D} (r : RedisCache) (dec : json → option D)
    (key : string) (ttl : Z) (fn : callback (result value)) (w : World)
    : Prop :=
  match RedisCache_Remember r dec key ttl fn w with
  | Panic => cache_lookup r dec key w = Err ErrCacheMiss ∧ fn w = None
  | Ret res w' calls =>
      (calls ≤ 1)%nat ∧
      match cache_lookup r dec key w with
      | Ok d => calls = 0%nat ∧ res = Ok d ∧ w' = w
      | Err err =>
          if decide (err = ErrCacheMiss) then
            calls = 1%nat ∧
            ∃ computed w1,
              fn w = Some (computed, w1) ∧
              match computed with
              | Err e => res = Err e ∧ w' = w1
              | Ok v =>
                  match marshal_value v with
                  | None => res = Err ErrUnsupportedType ∧ w' = w1
                  | Some j =>
                      w' = with_redis w1
                             (Redis.Set_ (clock w1) (redis w1)
                                         (prefix r +:+ key) (print j) ttl) ∧
                      res = match dec j with
                            | Some d => Ok d
                            | None => Err ErrUnmarshal
                            end
                  end
              end
          else calls = 0%nat ∧ res = Err err ∧ w' = w
      end
  end.

Definition tag_key (t : TaggedCache) (tag : string) : string :=
  tag_prefix t +:+ tag.




(** A request that the middleware would cache: no skip, GET or HEAD. *)
Definition cacheable (config : CacheConfig) (c : Context) : Prop :=
  match SkipFunc config with Some skip => skip c | None => false end = false ∧
  (method c = "GET" ∨ method c = "HEAD").

Definition key_of (config : CacheConfig) (c : Context) : string :=
  default default_key (KeyFunc config) c.

(** ** Sample worlds *)

Definition empty_ctx : Context :=
  mkContext "GET" "/" "" ∅ ∅ 0 ∅ None [].

Definition empty_world (now : Z) : World :=
  mkWorld now [] ∅ ∅ ∅ empty_ctx.

(** A request being served with a new session attached to its context. *)
Definition sample_session : Session := NewSession 1000 zero32 Hour.

Definition sample_world : World :=
  mkWorld 1000 [] {[ 1%positive := sample_session ]} ∅ ∅
          (with_locals empty_ctx {[ "session" := ASession 1 ]}).

Definition config_with_key (b : backend) (key : string) : Config :=
  mkConfig (Some (store_of b)) "session_id" "/" "" Hour false true
           SameSiteLaxMode key.

(** A handler that reports whether [GetSession] finds a session. *)
Definition probe : callback (option error) :=
  λ w, match GetSession w with
       | Ret (Ok _) _ _ => Some (None, w)
       | _ => Some (Some (ErrHandler "no session"), w)
       end.

(** A session with JSON's own values, and a world that holds it. *)
Definition redis_session : Session :=
  mkSession "abc" (Some {[ "user" := VString "ann"; "n" := VFloat64 3 ]})
            1000 (1000 + Hour) 1000.

Definition redis_world : World :=
  mkWorld 1000 [] {[ 1%positive := redis_session ]} ∅ ∅ empty_ctx.

(** A session that is past its expiry and holds a function value. *)
Definition dead_callback_session : Session :=
  mkSession "abc" (Some {[ "cb" := VFunc ]}) 0 0 0.

Definition dead_callback_world : World :=
  mkWorld 1000 [] {[ 1%positive := dead_callback_session ]} ∅ ∅ empty_ctx.

Definition expired_session : Session := mkSession "abc" (Some ∅) 0 500 0.

(** The in-memory store holding an expired session. *)
Definition expired_in_memory : World :=
  mkWorld 1000 [] {[ 1%positive := expired_session ]} {[ "abc" := 1%positive ]}
          ∅ empty_ctx.

(** The Redis server holding, under a long expiration, a session that is
    past its own expiry. *)
Definition expired_in_redis : World :=
  mkWorld 1000 [] ∅ ∅
    {[ "session:abc" :=
         Redis.Entry
           (Redis.RString (default "" (Session.Marshal expired_session)))
           (Some 5000) ]}
    empty_ctx.


(** A handler that answers 200 with a header and a body. *)
Definition hello : callback (option error) :=
  λ w, Some (None,
             with_ctx w
               (with_body
                  (with_headers (with_status (ctx w) 200)
                     (<["Content-Type" := "text/plain"]> (headers (ctx w))))
                  (Some "hello"))).

Definition users_request : World :=
  with_ctx (empty_world 1000)
           (mkContext "GET" "/users" "" ∅ ∅ 0 ∅ None []).

Definition default_cache : RedisCache := mkRedisCache "cache:".

End Vocabulary.

(* ===================================================================== *)
(** ** Package cache: raw values and the helpers of middleware.go *)
(* ===================================================================== *)

Module CacheHelpers.
Import GoTime Json Dyn Runtime Cache CacheMiddleware.
Local Open Scope go_scope.

Section RedisCache.
Variable r : RedisCache.




(** [r.SetBytes(key, value, ttl)] *)
Definition RedisCache_SetBytes (key value : string) (ttl : Duration)
    : M (option error) :=
  let fullKey := prefix r +:+ key in
  modify (λ w, with_redis w
                 (Redis.Set_ (clock w) (redis w) fullKey value ttl)) >>>
  ret None.
End RedisCache.

(** [Invalidate(cache, keys...)], on the Redis cache, the one
    implementation of the [Cache] interface. *)
Definition Invalidate (cache : RedisCache) (keys : list string)
    : M (option error) :=
  until_error (RedisCache_Delete cache) keys.


End CacheHelpers.

(* ===================================================================== *)
(** * Further vocabulary *)
(* ===================================================================== *)

Module Scenarios.
Import GoTime Json Dyn Session Runtime SessionStore SessionMiddleware Cache
  CacheMiddleware Vocabulary.
Local Open Scope go_scope.


(** A session whose [Data] map is nil, and a world that holds it. *)
Definition nil_data_session : Session :=
  mkSession "abc" None 1000 (1000 + Hour) 1000.

Definition nil_data_world : World :=
  mkWorld 1000 [] {[ 1%positive := nil_data_session ]} ∅ ∅
          (with_locals empty_ctx {[ "session" := ASession 1 ]}).

(** The in-memory store holding a session in force. *)
Definition stored_in_memory : World :=
  mkWorld 1000 [] {[ 1%positive := redis_session ]} {[ "abc" := 1%positive ]}
          ∅ empty_ctx.

(** The Redis server holding the record of a session in force. *)
Definition touched_world : World :=
  mkWorld 2000 [] ∅ ∅
    {[ "session:abc" :=
         Redis.Entry
           (Redis.RString (default "" (Session.Marshal redis_session)))
           (Some (1000 + Hour)) ]}
    empty_ctx.

(** Every entry of the in-memory table points to a session: [Set] stores
    only pointers it has followed. *)
Definition table_sound (w : World) : Prop :=
  map_Forall (λ _ session, is_Some (heap w !! session)) (sessions w).

(** A write with expiration [ttl] at time [now] is still there at [t]. *)
Definition within (ttl : Duration) (now t : Z) : Prop :=
  ttl ≠ Redis.KeepTTL ∧ (0 < ttl → t < now + Redis.px ttl).

(** The cookie by which [DestroySession] makes the browser forget. *)
Definition deletion_cookie (config : Config) : Runtime.Cookie :=
  {| Name := CookieName config; Value := "";
     Path := CookiePath config; Domain := "";
     MaxAge := -1; Secure := false; HttpOnly := true;
     SameSite := 0 |}.


(** The request brings no cookie that leads the in-memory store to a
    session in force. *)
Definition no_usable_cookie (config : Config) (w : World) : Prop :=
  match cookies (ctx w) !! CookieName config with
  | None => True
  | Some value =>
      value = "" ∨
      match sessions w !! value with
      | None => True
      | Some p => ∃ s, heap w !! p = Some s ∧ IsExpired (clock w) s = true
      end
  end.


(** The Redis server after one round of the loop of [t.Set]. *)
Definition tagged (t : TaggedCache) (key : string) (ttl : Duration)
    (now : Z) (d : gmap string Redis.entry) (tag : string)
    : gmap string Redis.entry :=
  let d1 := (Redis.SAdd now d (tag_key t tag) key).1 in
  if 0 <? ttl then Redis.Expire now d1 (tag_key t tag) ttl else d1.

(** A compute function that returns a value and leaves the world alone. *)
Definition computing (v : value) : callback (result value) :=
  λ w, Some (Ok v, w).


(** A request that is not a GET or HEAD request. *)
Definition post_request : World :=
  with_ctx (empty_world 1000)
           (mkContext "POST" "/users" "" ∅ ∅ 0 ∅ None []).





(** The request is answered from the cache. *)
Definition served_from_cache (config : CacheConfig) (cache : RedisCache)
    (w : World) : Prop :=
  cacheable config (ctx w) ∧
  ∃ cached, cache_lookup cache unmarshal_CachedResponse
                         (key_of config (ctx w)) w = Ok cached.


(** The world in which the handler runs when the cookie of the request
    led to the session [s] at [p]. *)
Definition greeted (config : Config) (w : World) (p : loc) (s : Session)
    : World :=
  with_ctx (with_heap w (<[p := with_UpdatedAt s (clock w)]> (heap w)))
    (with_locals (ctx w)
       (<["session_id" := AString (ID s)]>
          (<[ContextKey config := ASession p]> (locals (ctx w))))).

(** The world in which the handler runs when a new session was made for
    the request and saved in the in-memory store. *)
Definition welcomed (config : Config) (w : World) : World :=
  let p := fresh (dom (heap w)) in
  let new := NewSession (clock w) (hd zero32 (entropy w)) (MaxAge_ config) in
  with_ctx
    (with_sessions
       (with_heap (with_entropy w (tl (entropy w))) (<[p := new]> (heap w)))
       (<[ID new := p]> (sessions w)))
    (with_locals (ctx w)
       (<["session_id" := AString (ID new)]>
          (<[ContextKey config := ASession p]> (locals (ctx w))))).




(** A request that brings the cookie of the session in the in-memory
    store. *)
Definition returning_visitor : World :=
  mkWorld 2000 [] {[ 1%positive := redis_session ]} {[ "abc" := 1%positive ]}
          ∅
          (mkContext "GET" "/" "" {[ "session_id" := "abc" ]} ∅ 0 ∅ None []).

End Scenarios.

(* ===================================================================== *)
(** * Properties *)
(* ===================================================================== *)

Module GoTimeFacts.
Import GoTime.

Lemma Sub_pos t u : (0 <? Sub t u) = (u <? t).
Proof.
  unfold Sub, minDuration, maxDuration.
  repeat case_match; lia.
Qed.

Lemma Sub_nonpos t u : (Sub t u <=? 0) = (t <=? u).
Proof.
  unfold Sub, minDuration, maxDuration.
  repeat case_match; lia.
Qed.

Lemma Sub_le t u : u <= t → Sub t u <= t - u.
Proof.
  unfold Sub, minDuration, maxDuration.
  repeat case_match; lia.
Qed.

End GoTimeFacts.

(** ** Reading back the text of a document *)

Module JsonFacts.
Import Json.

#[local] Arguments String.append !_ _ / : simpl nomatch.

Lemma append_assoc (a b c : string) : (a +:+ b) +:+ c = a +:+ (b +:+ c).
Proof. induction a as [|x a IH]; simpl; [done|]. by rewrite IH. Qed.

Lemma read_uint_no_digit s : no_digit_head s → read_uint s = (Nil, s).
Proof. destruct s as [|c r]; simpl; [done|]. by intros ->. Qed.

Lemma read_uint_print d rest :
  no_digit_head rest → read_uint (print_uint d ++ rest) = (d, rest).
Proof.
  intros Hrest. induction d; simpl; rewrite ?IHd; auto using read_uint_no_digit.
Qed.

Lemma print_uint_head d :
  d ≠ Nil → ∃ c r, print_uint d = String c r ∧ is_Some (digit_of c).
Proof. destruct d; [done|..]; intros _; simpl; eauto. Qed.

Lemma to_int_cases z :
  (∃ d, Z.to_int z = Decimal.Pos d ∧ d ≠ Nil ∧ Z.of_uint d = z) ∨
  (∃ d, Z.to_int z = Decimal.Neg d ∧ d ≠ Nil ∧ - Z.of_uint d = z).
Proof.
  pose proof (DecimalZ.of_to z) as Hz.
  destruct z as [|p|p]; simpl in *.
  - left. eexists. split; [done|]. split; done.
  - left. eexists. split; [done|].
    split; [apply Unsigned.to_uint_nonnil | done].
  - right. eexists. split; [done|].
    split; [apply Unsigned.to_uint_nonnil | done].
Qed.

Lemma digit_not_minus c : is_Some (digit_of c) → c ≠ "-"%char.
Proof. intros [d Hd] ->. vm_compute in Hd. done. Qed.

Lemma read_number_print z rest :
  no_digit_head rest → read_number (print_Z z ++ rest) = Some (z, rest).
Proof.
  intros Hrest. unfold print_Z.
  destruct (to_int_cases z) as [(d & -> & Hd & Hz)|(d & -> & Hd & Hz)].
  - destruct (print_uint_head d Hd) as (c & r & Hpr & Hc).
    pose proof (read_uint_print d rest Hrest) as Hrd.
    pose proof (digit_not_minus c Hc) as Hne.
    apply Ascii.eqb_neq in Hne.
    unfold read_number. rewrite Hpr in *.
    change (String c r +:+ rest) with (String c (r +:+ rest)) in *.
    cbv beta iota. rewrite Hne, Hrd. destruct d; congruence.
  - simpl. rewrite read_uint_print by done. destruct d; congruence.
Qed.

Lemma read_string_escape s rest :
  read_string (escape s ++ String "034"%char rest) = Some (s, rest).
Proof.
  induction s as [|c s IH]; simpl; [done|].
  destruct (Ascii.eqb c "034"%char) eqn:Hq.
  - apply Ascii.eqb_eq in Hq as ->. simpl. by rewrite IH.
  - destruct (Ascii.eqb c "\"%char) eqn:Hb.
    + apply Ascii.eqb_eq in Hb as ->. simpl. by rewrite IH.
    + simpl. by rewrite Hq, Hb, IH.
Qed.

Lemma digit_start c :
  is_Some (digit_of c) → classify c = SNumber ∧ is_ws c = false ∧ c ≠ "]"%char.
Proof.
  intros [d Hd].
  destruct c as [[] [] [] [] [] [] [] []]; vm_compute in Hd; try done.
Qed.

Lemma print_Z_head z :
  ∃ c r, print_Z z = String c r ∧
         classify c = SNumber ∧ is_ws c = false ∧ c ≠ "]"%char.
Proof.
  unfold print_Z.
  destruct (to_int_cases z) as [(d & -> & Hd & _)|(d & -> & _)].
  - destruct (print_uint_head d Hd) as (c & r & -> & Hc).
    exists c, r. split; [done|]. by apply digit_start.
  - eexists _, _. split; [done|]. done.
Qed.

(** What a written document starts with. *)
Lemma print_head j :
  ∃ c r, print j = String c r ∧ is_ws c = false ∧ c ≠ "]"%char.
Proof.
  destruct j as [|[]|n|s|l|kvs]; simpl; try (eexists _, _; done).
  destruct (print_Z_head n) as (c & r & -> & _ & ? & ?). eauto.
Qed.

Lemma jsize_pos j : (1 ≤ jsize j)%nat.
Proof. destruct j; simpl; lia. Qed.

Ltac delim := solve [ exact I | vm_compute; reflexivity | done ].

Lemma skip_ws_cons c r : is_ws c = false → skip_ws (String c r) = String c r.
Proof. simpl. by intros ->. Qed.

Lemma print_string_app k t :
  print_string k +:+ t = String "034"%char (escape k +:+ String "034"%char t).
Proof. unfold print_string. simpl. by rewrite append_assoc. Qed.

Section read_back.
Context {A : Type} (rd : string → option (A * string)) (pr : A → string).
Variable close : ascii.
Hypothesis close_not_comma : Ascii.eqb close ","%char = false.
Hypothesis close_not_ws : is_ws close = false.
Hypothesis close_not_digit : digit_of close = None.

Definition reads (x : A) : Prop :=
  ∀ rest, no_digit_head rest → rd (pr x +:+ rest) = Some (x, rest).

Lemma read_seq_print l n rest :
  l ≠ [] → (length l ≤ n)%nat → Forall reads l →
  read_seq rd close n (print_seq pr (String close "") l +:+ rest)
  = Some (l, rest).
Proof.
  assert (Hclose : no_digit_head (String close "" +:+ rest)).
  { exact close_not_digit. }
  revert n. induction l as [|x l IH]; intros n Hne Hn Hall; [done|].
  apply Forall_cons in Hall as [Hx Hall]. unfold reads in Hx.
  destruct n as [|n]; [simpl in Hn; lia|].
  destruct l as [|y l].
  - cbn [print_seq read_seq]. rewrite append_assoc, Hx by done.
    change (String close "" +:+ rest) with (String close rest).
    rewrite skip_ws_cons by done. cbv beta iota.
    rewrite close_not_comma, Ascii.eqb_refl. done.
  - change (print_seq pr (String close "") (x :: y :: l))
      with (pr x +:+ "," +:+ print_seq pr (String close "") (y :: l)).
    cbn [read_seq]. rewrite !append_assoc, Hx by delim.
    change ("," +:+ print_seq pr (String close "") (y :: l) +:+ rest)
      with (String ","%char (print_seq pr (String close "") (y :: l) +:+ rest)).
    rewrite skip_ws_cons by delim. cbv beta iota. rewrite Ascii.eqb_refl.
    rewrite IH; [done..| simpl in *; lia | done].
Qed.
End read_back.

Lemma read_member_print pv kv :
  reads pv print kv.2 → reads (read_member pv) print_member kv.
Proof.
  intros Hv rest Hrest. destruct kv as [k v]. simpl in Hv.
  unfold print_member, read_member. simpl fst; simpl snd.
  rewrite !append_assoc, print_string_app.
  rewrite skip_ws_cons by delim. cbv beta iota. rewrite Ascii.eqb_refl.
  rewrite read_string_escape.
  change (":" +:+ print v +:+ rest) with (String ":"%char (print v +:+ rest)).
  rewrite skip_ws_cons by delim. cbv beta iota. rewrite Ascii.eqb_refl.
  by rewrite Hv.
Qed.

Lemma print_arr l : print (JArr l) = "[" +:+ print_seq print "]" l.
Proof.
  cbn [print]. f_equal.
  induction l as [|x l IH]; [done|]. destruct l as [|y l]; [done|].
  change (print_seq print "]" (x :: y :: l))
    with (print x +:+ "," +:+ print_seq print "]" (y :: l)).
  by rewrite <- IH.
Qed.

Lemma print_obj l : print (JObj l) = "{" +:+ print_seq print_member "}" l.
Proof.
  cbn [print]. f_equal.
  induction l as [|x l IH]; [done|]. destruct l as [|y l]; [done|].
  change (print_seq print_member "}" (x :: y :: l))
    with (print_member x +:+ "," +:+ print_seq print_member "}" (y :: l)).
  by rewrite <- IH.
Qed.

Lemma jsize_elems (l : list json) x :
  x ∈ l → (jsize x ≤ foldr (λ x n, jsize x + n) 0 l)%nat.
Proof. induction 1; simpl; lia. Qed.

Lemma jsize_length (l : list json) :
  (length l ≤ foldr (λ x n, jsize x + n) 0 l)%nat.
Proof.
  induction l as [|x l IH]; simpl; [lia|]. pose proof (jsize_pos x). lia.
Qed.

Lemma jsize_members (l : list (string * json)) kv :
  kv ∈ l → (jsize kv.2 ≤ foldr (λ kv n, jsize kv.2 + n) 0 l)%nat.
Proof. induction 1; simpl; lia. Qed.

Lemma jsize_members_length (l : list (string * json)) :
  (length l ≤ foldr (λ kv n, jsize kv.2 + n) 0 l)%nat.
Proof.
  induction l as [|x l IH]; simpl; [lia|]. pose proof (jsize_pos x.2). lia.
Qed.

Lemma print_seq_head {A} (pr : A → string) close (l : list A) x c r :
  pr x = String c r →
  ∃ r', print_seq pr close (x :: l) = String c r'.
Proof. intros Hx. destruct l; simpl; rewrite Hx; simpl; eauto. Qed.

Lemma read_value_print j :
  ∀ f rest, (jsize j ≤ f)%nat → no_digit_head rest →
            read_value f (print j +:+ rest) = Some (j, rest).
Proof.
  induction j as [|b|n|s|l IH|kvs IH] using json_nested_ind;
    intros [|f] rest Hf Hrest; try (simpl in Hf; lia).
  - done.
  - by destruct b.
  - destruct (print_Z_head n) as (c & r & Hpr & Hcl & Hws & _).
    pose proof (read_number_print n rest Hrest) as Hrd.
    cbn [print read_value]. rewrite Hpr in *.
    change (String c r +:+ rest) with (String c (r +:+ rest)) in *.
    rewrite skip_ws_cons by done. cbv beta iota. by rewrite Hcl, Hrd.
  - cbn [print read_value]. rewrite print_string_app.
    rewrite skip_ws_cons by delim. cbv beta iota.
    change (classify "034"%char) with SQuote. cbv beta iota.
    by rewrite read_string_escape.
  - rewrite print_arr. destruct l as [|x l]; [done|].
    destruct (print_head x) as (c & r & Hpr & Hws & Hc).
    destruct (print_seq_head print "]" l x c r Hpr) as (r' & Hseq).
    assert (Hread : read_seq (read_value f) "]"%char f
                      (print_seq print "]" (x :: l) +:+ rest)
                    = Some (x :: l, rest)).
    { apply read_seq_print; [done..| |].
      - simpl in Hf. pose proof (jsize_length (x :: l)). simpl in *. lia.
      - apply Forall_forall. intros y Hy.
        pose proof (proj1 (Forall_forall _ _) IH y Hy) as Hrec.
        intros rest' Hrest'. apply Hrec; [|done].
        pose proof (jsize_elems (x :: l) y Hy). simpl in *. lia. }
    rewrite Hseq in *.
    change (("[" +:+ String c r') +:+ rest)
      with (String "["%char (String c (r' +:+ rest))).
    change (String c r' +:+ rest) with (String c (r' +:+ rest)) in Hread.
    cbn [read_value]. rewrite skip_ws_cons by delim. cbv beta iota.
    change (classify "["%char) with SArr. cbv beta iota.
    rewrite skip_ws_cons by done. apply Ascii.eqb_neq in Hc.
    by rewrite Hc, Hread.
  - rewrite print_obj. destruct kvs as [|[k x] l]; [done|].
    assert (Hread : read_seq (read_member (read_value f)) "}"%char f
                      (print_seq print_member "}" ((k, x) :: l) +:+ rest)
                    = Some ((k, x) :: l, rest)).
    { apply read_seq_print; [done..| |].
      - simpl in Hf. pose proof (jsize_members_length ((k, x) :: l)).
        simpl in *. lia.
      - apply Forall_forall. intros y Hy.
        pose proof (proj1 (Forall_forall _ _) IH y Hy) as Hrec. simpl in Hrec.
        apply read_member_print.
        intros rest' Hrest'. apply Hrec; [|done].
        pose proof (jsize_members ((k, x) :: l) y Hy). simpl in *. lia. }
    destruct (print_seq_head print_member "}" l (k, x) "034"%char
                (escape k +:+ String "034"%char (":" +:+ print x)))
      as (r' & Hseq).
    { unfold print_member. simpl fst; simpl snd.
      by rewrite ?append_assoc, print_string_app. }
    rewrite Hseq in *.
    change (("{" +:+ String "034"%char r') +:+ rest)
      with (String "{"%char (String "034"%char (r' +:+ rest))).
    change (String "034"%char r' +:+ rest)
      with (String "034"%char (r' +:+ rest)) in Hread.
    cbn [read_value]. rewrite skip_ws_cons by delim. cbv beta iota.
    change (classify "{"%char) with SObj. cbv beta iota.
    rewrite skip_ws_cons by delim.
    change (Ascii.eqb "034"%char "}"%char) with false. cbv beta iota.
    by rewrite Hread.
Qed.

Lemma length_append (a b : string) :
  String.length (a +:+ b) = (String.length a + String.length b)%nat.
Proof. induction a as [|x a IH]; simpl; [done|]. by rewrite IH. Qed.

Lemma print_seq_length {A} (pr : A → string) (sz : A → nat) close l :
  Forall (λ x, sz x ≤ String.length (pr x))%nat l →
  (foldr (λ x n, sz x + n) 0 l ≤ String.length (print_seq pr close l))%nat.
Proof.
  induction 1 as [|x l Hx Hl IH]; [simpl; lia|]. destruct l as [|y l].
  - cbn [print_seq foldr]. rewrite length_append. lia.
  - change (print_seq pr close (x :: y :: l))
      with (pr x +:+ "," +:+ print_seq pr close (y :: l)).
    cbn [foldr] in *. rewrite !length_append. lia.
Qed.

Lemma print_length j : (jsize j ≤ String.length (print j))%nat.
Proof.
  induction j as [|b|n|s|l IH|kvs IH] using json_nested_ind.
  - simpl. lia.
  - destruct b; simpl; lia.
  - destruct (print_Z_head n) as (c & r & Hpr & _). simpl. rewrite Hpr.
    simpl. lia.
  - simpl. lia.
  - rewrite print_arr, length_append. cbn [jsize].
    pose proof (print_seq_length print jsize "]" l IH).
    change (String.length "[") with 1%nat. lia.
  - rewrite print_obj, length_append. cbn [jsize].
    change (String.length "{") with 1%nat.
    assert (Forall (λ kv, jsize kv.2 ≤ String.length (print_member kv))%nat kvs)
      as Hall.
    { eapply Forall_impl; [exact IH|]. intros [k v] Hv. simpl in *.
      unfold print_member. rewrite !length_append. simpl. lia. }
    pose proof (print_seq_length print_member (λ kv, jsize kv.2) "}" kvs Hall).
    lia.
Qed.

(** Reading the text of a document gives the document back. *)
Lemma parse_print j : parse (print j) = Some j.
Proof.
  unfold parse.
  assert (print j = print j +:+ "") as Heq.
  { clear. induction (print j) as [|c s IH]; simpl; congruence. }
  rewrite Heq at 2. rewrite read_value_print; [done| |done].
  pose proof (print_length j). lia.
Qed.

End JsonFacts.

(** ** Decoding what was encoded *)

Module Base64Facts.
Import Base64.

Example encode_hello :
  EncodeToString StdEncoding "hello" = "aGVsbG8=".
Proof. reflexivity. Qed.

Example decode_hello : DecodeString StdEncoding "aGVsbG8=" = Some "hello".
Proof. reflexivity. Qed.

Example decode_url_char : DecodeString StdEncoding "a-_b" = None.
Proof. reflexivity. Qed.

Ltac divmod := zify; Z.to_euclidean_division_equations; lia.





Lemma EncodeToString_nonempty alphabet s :
  s ≠ "" → EncodeToString alphabet s ≠ "".
Proof. destruct s as [|a [|b [|c r]]]; done. Qed.

End Base64Facts.

(** ** Values through JSON *)

Module DynFacts.
Import Json Dyn.

Lemma json_image_native v : json_native v = true → json_image v = Some v.
Proof.
  unfold json_image.
  induction v as [|b|n|x|s|l IH|kvs IH|] using value_nested_ind;
    intros Hv; try done.
  - simpl in Hv |- *.
    assert (∃ js, (fix go (l : list value) : option (list json) :=
                     match l with
                     | [] => Some []
                     | x :: l' =>
                         match marshal_value x, go l' with
                         | Some y, Some ys => Some (y :: ys)
                         | _, _ => None
                         end
                     end) l = Some js ∧ map unmarshal_value js = l)
      as (js & -> & Hjs).
    { induction IH as [|v l Hv' _ IHl]; [by exists []|].
      simpl in Hv. apply andb_prop in Hv as [Hv1 Hv2].
      destruct (IHl Hv2) as (js & -> & Hjs).
      specialize (Hv' Hv1).
      destruct (marshal_value v) as [j|]; [|done].
      exists (j :: js). simpl in *. split; [done|]. congruence. }
    simpl. by rewrite Hjs.
  - simpl in Hv |- *.
    assert (∃ js, (fix go (l : list (string * value))
                     : option (list (string * json)) :=
                     match l with
                     | [] => Some []
                     | kv :: l' =>
                         match marshal_value kv.2, go l' with
                         | Some y, Some ys => Some ((kv.1, y) :: ys)
                         | _, _ => None
                         end
                     end) kvs = Some js ∧
                  (fix go (l : list (string * json)) : list (string * value) :=
                     match l with
                     | [] => []
                     | kv :: l' => (kv.1, unmarshal_value kv.2) :: go l'
                     end) js = kvs)
      as (js & -> & Hjs).
    { induction IH as [|[k v] l Hv' _ IHl]; [by exists []|].
      apply andb_prop in Hv as [Hv1 Hv2].
      destruct (IHl Hv2) as (js & -> & Hjs).
      specialize (Hv' Hv1). simpl in Hv' |- *.
      destruct (marshal_value v) as [j|]; [|done].
      exists ((k, j) :: js). simpl in *. split; [done|]. congruence. }
    simpl. by rewrite Hjs.
Qed.

Example json_image_int : json_image (VInt 123) = Some (VFloat64 123).
Proof. reflexivity. Qed.

Example json_image_func : json_image (VMap [("cb", VFunc)]) = None.
Proof. reflexivity. Qed.

End DynFacts.

(** ** The Redis server *)

Module RedisFacts.
Import GoTime Redis.

Lemma px_pos ttl : 0 < ttl → 0 < px ttl.
Proof.
  unfold px, Millisecond. intros H. case_match; [lia|].
  apply Z.ltb_ge in H0.
  assert (1 <= ttl / 1000000) by (apply Z.div_le_lower_bound; lia). lia.
Qed.

Lemma px_le ttl : 1000000 <= ttl → px ttl <= ttl.
Proof.
  unfold px, Millisecond. intros H. case_match; [lia|].
  pose proof (Z.mul_div_le ttl 1000000). lia.
Qed.

Lemma find_insert_eq now d key e :
  find now (<[key := e]> d) key = if live now e then Some e else None.
Proof. unfold find. by rewrite lookup_insert_eq. Qed.


Lemma find_delete_eq now d key : find now (delete key d) key = None.
Proof. unfold find. by rewrite lookup_delete_eq. Qed.

End RedisFacts.

(** ** Writing a session and reading it back *)

Module CodecFacts.
Import GoTime Json Dyn Session JsonFacts DynFacts.

Lemma traverse_marshal (l : list (string * value)) js :
  traverse (λ kv, pair kv.1 <$> marshal_value kv.2) l = Some js →
  prod_map id unmarshal_value <$> js = prod_map id image <$> l.
Proof.
  revert js. induction l as [|[k v] l IH]; intros js; simpl.
  - by intros [= <-].
  - unfold image, json_image.
    destruct (marshal_value v) as [j|]; simpl; [|done].
    destruct (traverse _ l) as [js'|]; [|done].
    intros [= <-]. rewrite !fmap_cons. f_equal. by apply IH.
Qed.

Lemma traverse_marshal_is_Some (l : list (string * value)) :
  Forall (λ kv, is_Some (marshal_value kv.2)) l →
  is_Some (traverse (λ kv, pair kv.1 <$> marshal_value kv.2) l).
Proof.
  induction 1 as [|[k v] l [j Hj] _ [js Hjs]]; simpl; [by eexists|].
  simpl in Hj. rewrite Hj. simpl. rewrite Hjs. by eexists.
Qed.

Lemma traverse_marshal_None (l : list (string * value)) k v :
  (k, v) ∈ l → marshal_value v = None →
  traverse (λ kv, pair kv.1 <$> marshal_value kv.2) l = None.
Proof.
  intros Hin Hv. induction l as [|[k' v'] l IH]; [by apply elem_of_nil in Hin|].
  simpl. apply elem_of_cons in Hin as [[= <- <-]|Hin].
  - by rewrite Hv.
  - rewrite (IH Hin). by destruct (marshal_value v').
Qed.

Lemma obj_to_map_image (m : gmap string value) js :
  traverse (λ kv, pair kv.1 <$> marshal_value kv.2) (map_to_list m) = Some js →
  obj_to_map js ∅ = image <$> m.
Proof.
  intros Hjs. unfold obj_to_map.
  rewrite (traverse_marshal _ _ Hjs), (right_id_L ∅ (∪)).
  set (L := prod_map id image <$> map_to_list m).
  assert (NoDup L.*1) as HL.
  { unfold L. rewrite <- list_fmap_compose.
    rewrite (list_fmap_ext _ fst (map_to_list m)) by by intros [].
    apply NoDup_fst_map_to_list. }
  rewrite <- (list_to_map_proper L (reverse L) HL)
    by by rewrite reverse_Permutation.
  unfold L. by rewrite list_to_map_fmap, list_to_map_to_list.
Qed.

Lemma marshal_Data_Some (d : option (gmap string value)) :
  (∀ m k v, d = Some m → m !! k = Some v → is_Some (marshal_value v)) →
  is_Some (marshal_Data d).
Proof.
  intros Hd. destruct d as [m|]; simpl; [|by eexists].
  destruct (traverse_marshal_is_Some (map_to_list m)) as [js ->]; [|by eexists].
  apply Forall_forall. intros [k v] Hkv. simpl.
  apply elem_of_map_to_list in Hkv. by eapply Hd.
Qed.

Lemma marshal_Data_None (m : gmap string value) k v :
  m !! k = Some v → marshal_value v = None → marshal_Data (Some m) = None.
Proof.
  intros Hk Hv. simpl.
  rewrite (traverse_marshal_None (map_to_list m) k v); [done| |done].
  by apply elem_of_map_to_list.
Qed.

(** What [json.Unmarshal] finds in the document [json.Marshal] wrote. *)
Lemma unmarshal_marshal_Session s j :
  marshal_Session s = Some j →
  unmarshal_Session j = Some (with_Data s (image_Data (Data s))).
Proof.
  unfold marshal_Session. destruct (marshal_Data (Data s)) as [d|] eqn:Hd; [|done].
  intros [= <-]. destruct s as [id data c e u]. simpl in *.
  destruct data as [m|]; simpl in Hd.
  - destruct (traverse _ (map_to_list m)) as [js|] eqn:Hjs; [|done].
    injection Hd as <-. unfold with_Data. simpl.
    by rewrite (obj_to_map_image m js Hjs).
  - by injection Hd as <-.
Qed.

Lemma Unmarshal_Marshal s data :
  Marshal s = Some data →
  Unmarshal data = Some (with_Data s (image_Data (Data s))).
Proof.
  unfold Marshal, Unmarshal.
  destruct (marshal_Session s) as [j|] eqn:Hj; [|done].
  intros [= <-]. rewrite parse_print. simpl.
  by apply unmarshal_marshal_Session.
Qed.

Lemma native_image_Data s :
  native s → image_Data (Data s) = Data s.
Proof.
  intros Hs. destruct (Data s) as [m|] eqn:Hm; [|done]. simpl. f_equal.
  apply map_eq. intros k. rewrite lookup_fmap.
  destruct (m !! k) as [v|] eqn:Hk; [|done]. simpl. f_equal.
  unfold image. by rewrite json_image_native by by eapply Hs.
Qed.

Lemma native_serialisable s : native s → serialisable s.
Proof.
  intros Hs m k v Hm Hk. specialize (Hs m k v Hm Hk).
  apply json_image_native in Hs. unfold json_image in Hs.
  destruct (marshal_value v); [by eexists|done].
Qed.

Lemma serialisable_Marshal s : serialisable s → is_Some (Marshal s).
Proof.
  intros Hs. unfold Marshal, marshal_Session.
  destruct (marshal_Data_Some (Data s)) as [d ->]; [|by eexists].
  intros m k v Hm Hk. by eapply Hs.
Qed.


End CodecFacts.

(** ** Computations *)

Module RuntimeFacts.
Import GoTime Dyn Session Runtime Vocabulary.
Local Open Scope go_scope.

(** Unfolds the plumbing of computations. *)
Ltac run :=
  cbv beta delta [bind ret get put modify panic Now deref assign alloc
                  c_Set c_Get c_GetCookie c_Cookie invoke] in *;
  simpl in *.

Lemma with_heap_ctx w h : ctx (with_heap w h) = ctx w.
Proof. done. Qed.

Lemma with_redis_id w : with_redis w (redis w) = w.
Proof. by destruct w. Qed.

Lemma bind_Ret_inv {A B} (m : M A) (k : A → M B) w b w2 n :
  bind m k w = Ret b w2 n →
  ∃ a w1 n1 n2, m w = Ret a w1 n1 ∧ k a w1 = Ret b w2 n2 ∧ n = (n1 + n2)%nat.
Proof.
  unfold bind. destruct (m w) as [|a w1 n1]; [done|].
  destruct (k a w1) as [|b' w2' n2] eqn:Hk; [done|].
  intros [= -> -> <-]. eauto 10.
Qed.


Lemma keeps_ctx_ret {A} (a : A) : keeps_ctx (ret a).
Proof. intros w a' w' n [= _ <- _]. done. Qed.

Lemma keeps_ctx_bind {A B} (m : M A) (k : A → M B) :
  keeps_ctx m → (∀ a, keeps_ctx (k a)) → keeps_ctx (bind m k).
Proof.
  intros Hm Hk w b w2 n (a & w1 & n1 & n2 & H1 & H2 & _)%bind_Ret_inv.
  rewrite (Hk a _ _ _ _ H2). by eapply Hm.
Qed.

Lemma keeps_ctx_modify (f : World → World) :
  (∀ w, ctx (f w) = ctx w) → keeps_ctx (modify f).
Proof. intros Hf w a w' n [= _ <- _]. apply Hf. Qed.

Lemma keeps_ctx_panic {A} : keeps_ctx (@panic A).
Proof. intros w a w' n [=]. Qed.

Lemma keeps_ctx_get : keeps_ctx get.
Proof. intros w a w' n [= _ <- _]. done. Qed.

Lemma keeps_ctx_Now : keeps_ctx Now.
Proof. intros w a w' n [= _ <- _]. done. Qed.

Lemma keeps_ctx_rand_Read : keeps_ctx rand_Read.
Proof. intros w a w' n [= _ <- _]. done. Qed.

Lemma keeps_ctx_deref p : keeps_ctx (deref p).
Proof.
  intros w a w' n. unfold deref.
  destruct (heap w !! p); intros [= _ <- _]; done.
Qed.

Lemma keeps_ctx_assign p s : keeps_ctx (assign p s).
Proof.
  intros w a w' n. unfold assign.
  destruct (heap w !! p); intros [= _ <- _]; done.
Qed.

Lemma keeps_ctx_alloc s : keeps_ctx (alloc s).
Proof. intros w a w' n [= _ <- _]. done. Qed.


Create HintDb keeps discriminated.
#[export] Hint Resolve keeps_ctx_ret keeps_ctx_modify keeps_ctx_panic
  keeps_ctx_get keeps_ctx_Now keeps_ctx_rand_Read keeps_ctx_deref
  keeps_ctx_assign keeps_ctx_alloc : keeps.

(** Splits a computation into its steps, case by case. *)
Ltac keeps :=
  repeat first
    [ solve [eauto with keeps]
    | apply keeps_ctx_bind; [|intros ?]
    | match goal with
      | |- keeps_ctx (match ?x with _ => _ end) => destruct x
      | |- keeps_ctx (if ?x then _ else _) => destruct x
      end ].

End RuntimeFacts.

(** ** Package session *)

Module SessionFacts.
Import GoTime Dyn Session Runtime SessionStore SessionMiddleware Vocabulary.
Import GoTimeFacts Base64Facts DynFacts CodecFacts RuntimeFacts.
Local Open Scope go_scope.

(** *** Session methods and [GetSession], evaluated *)

Lemma GetSession_run w :
  GetSession w =
  Ret (match locals (ctx w) !! "session" with
       | Some (ASession sess) => Ok sess
       | _ => Err ErrSessionNotFound
       end) w 0.
Proof.
  unfold GetSession. run.
  destruct (locals (ctx w) !! "session") as [[]|]; done.
Qed.

Lemma Session_Set_run w p s m key v :
  heap w !! p = Some s → Data s = Some m →
  Session_Set p key v w =
  Ret () (with_heap w (<[p := mkSession (ID s) (Some (<[key := v]> m))
                                        (CreatedAt s) (ExpiresAt s) (clock w)]>
                         (heap w))) 0.
Proof.
  intros Hp Hm. unfold Session_Set. run. rewrite Hp, Hm. run.
  rewrite Hp. simpl. repeat (rewrite lookup_insert_eq; simpl).
  unfold with_heap. simpl. by rewrite insert_insert_eq.
Qed.

Lemma Session_Get_run w p s key :
  heap w !! p = Some s →
  Session_Get p key w =
  Ret (match Data s ≫= (.!! key) with
       | Some v => (v, true)
       | None => (VNil, false)
       end) w 0.
Proof.
  intros Hp. unfold Session_Get. run. rewrite Hp.
  by destruct (Data s ≫= _).
Qed.

Lemma Session_Delete_run w p s key :
  heap w !! p = Some s →
  Session_Delete p key w =
  Ret () (with_heap w (<[p := mkSession (ID s) (delete key <$> Data s)
                                        (CreatedAt s) (ExpiresAt s) (clock w)]>
                         (heap w))) 0.
Proof.
  intros Hp. unfold Session_Delete. run.
  repeat (first [rewrite Hp | rewrite lookup_insert_eq]; simpl).
  unfold with_heap. simpl. by rewrite insert_insert_eq.
Qed.

(** *** The stores' [Set] and [Get], evaluated *)

Lemma MemoryStore_Set_run w p s :
  heap w !! p = Some s →
  MemoryStore_Set p w
  = Ret None (with_sessions w (<[ID s := p]> (sessions w))) 0.
Proof. intros Hp. unfold MemoryStore_Set. run. by rewrite Hp. Qed.

Lemma RedisStore_Set_run prefix w p s :
  heap w !! p = Some s →
  RedisStore_Set prefix p w =
  match Marshal s with
  | None => Ret (Some ErrUnsupportedType) w 0
  | Some data =>
      if Until (clock w) (ExpiresAt s) <=? 0
      then Ret (Some ErrSessionExpired) w 0
      else Ret None
             (with_redis w
                (Redis.Set_ (clock w) (redis w) (prefix +:+ ID s) data
                            (Until (clock w) (ExpiresAt s)))) 0
  end.
Proof.
  intros Hp. unfold RedisStore_Set. run. rewrite Hp.
  destruct (Marshal s) as [data|]; [|done]. simpl.
  by destruct (Until (clock w) (ExpiresAt s) <=? 0).
Qed.

(** A positive expiration makes the key live at the time of the write. *)
Lemma find_Set_eq now d key data ttl :
  0 < ttl →
  Redis.find now (Redis.Set_ now d key data ttl) key
  = Some (Redis.Entry (Redis.RString data) (Some (now + Redis.px ttl))).
Proof.
  intros Httl. unfold Redis.Set_.
  assert ((0 <? ttl) = true) as -> by lia.
  rewrite RedisFacts.find_insert_eq. unfold Redis.live. simpl.
  pose proof (RedisFacts.px_pos ttl Httl).
  by assert ((now <? now + Redis.px ttl) = true) as -> by lia.
Qed.


Lemma MemoryStore_Get_run w id :
  MemoryStore_Get id w =
  match sessions w !! id with
  | None => Ret (Err ErrSessionNotFound) w 0
  | Some p =>
      match heap w !! p with
      | None => Panic
      | Some s =>
          if IsExpired (clock w) s then Ret (Err ErrSessionExpired) w 0
          else Ret (Ok p) w 0
      end
  end.
Proof.
  unfold MemoryStore_Get, Session_IsExpired. run.
  destruct (sessions w !! id) as [p|]; [|done]. simpl.
  destruct (heap w !! p) as [s|]; [|done]. simpl.
  by destruct (IsExpired (clock w) s).
Qed.

Lemma RedisStore_Get_run prefix w id :
  RedisStore_Get prefix id w =
  match Redis.Get (clock w) (redis w) (prefix +:+ id) with
  | Ok None => Ret (Err ErrSessionNotFound) w 0
  | Err e => Ret (Err e) w 0
  | Ok (Some data) =>
      match Unmarshal data with
      | None => Ret (Err ErrUnmarshal) w 0
      | Some s =>
          if IsExpired (clock w) s then
            Ret (Err ErrSessionExpired)
                (with_redis w (delete (prefix +:+ id) (redis w))) 0
          else
            Ret (Ok (fresh (dom (heap w))))
                (with_heap w (<[fresh (dom (heap w)) := s]> (heap w))) 0
      end
  end.
Proof.
  unfold RedisStore_Get, RedisStore_Delete. run.
  destruct (Redis.Get _ _ _) as [[data|]|e]; try done. simpl.
  destruct (Unmarshal data) as [s|]; [|done]. simpl.
  by destruct (IsExpired (clock w) s).
Qed.

Lemma CookieStore_Get_run w cookieValue :
  CookieStore_Get cookieValue w =
  if decide (cookieValue = "") then Ret (Err ErrSessionNotFound) w 0
  else
    match Base64.DecodeString Base64.StdEncoding cookieValue with
    | None => Ret (Err ErrCorruptInput) w 0
    | Some data =>
        match Unmarshal data with
        | None => Ret (Err ErrUnmarshal) w 0
        | Some s =>
            if IsExpired (clock w) s then Ret (Err ErrSessionExpired) w 0
            else
              Ret (Ok (fresh (dom (heap w))))
                  (with_heap w (<[fresh (dom (heap w)) := s]> (heap w))) 0
        end
    end.
Proof.
  unfold CookieStore_Get. destruct (decide (cookieValue = "")); [done|].
  destruct (Base64.DecodeString _ _) as [data|]; [|done].
  destruct (Unmarshal data) as [s|]; [|done]. run.
  by destruct (IsExpired (clock w) s).
Qed.

(** *** The stores leave the request context alone *)

Lemma keeps_ctx_RedisStore_Get prefix id :
  keeps_ctx (RedisStore_Get prefix id).
Proof. unfold RedisStore_Get, RedisStore_Delete. keeps. Qed.

Lemma keeps_ctx_RedisStore_Set prefix p :
  keeps_ctx (RedisStore_Set prefix p).
Proof. unfold RedisStore_Set. keeps. Qed.

#[local] Hint Resolve keeps_ctx_RedisStore_Get keeps_ctx_RedisStore_Set : keeps.

Lemma keeps_ctx_Get b id : keeps_ctx (Get (store_of b) id).
Proof.
  destruct b as [| |prefix]; simpl.
  - unfold MemoryStore_Get, Session_IsExpired. keeps.
  - unfold CookieStore_Get. keeps.
  - apply keeps_ctx_RedisStore_Get.
Qed.

Lemma keeps_ctx_Set b p : keeps_ctx (Set_ (store_of b) p).
Proof.
  destruct b as [| |prefix]; simpl.
  - unfold MemoryStore_Set. keeps.
  - unfold CookieStore_Set. keeps.
  - apply keeps_ctx_RedisStore_Set.
Qed.

Lemma keeps_ctx_Delete b id : keeps_ctx (Delete (store_of b) id).
Proof.
  destruct b as [| |prefix]; simpl.
  - unfold MemoryStore_Delete. keeps.
  - unfold CookieStore_Delete. keeps.
  - unfold RedisStore_Delete. keeps.
Qed.

Lemma keeps_ctx_Touch b id : keeps_ctx (Touch (store_of b) id).
Proof.
  destruct b as [| |prefix]; simpl.
  - unfold MemoryStore_Touch. keeps.
  - unfold CookieStore_Touch. keeps.
  - unfold RedisStore_Touch. keeps.
Qed.

Lemma keeps_ctx_NewSession maxAge : keeps_ctx (NewSession_ maxAge).
Proof. unfold NewSession_. keeps. Qed.

#[local] Hint Resolve keeps_ctx_Get keeps_ctx_Set keeps_ctx_Delete
  keeps_ctx_Touch keeps_ctx_NewSession : keeps.



(** *** C2: saving a session and loading it *)


(** An identifier drawn from other bytes is not even base64 of the
    standard alphabet. *)
Example CookieStore_Get_url_safe_id :
  let id := generateSessionID "~~~~~~~~~~~~~~~~~~~~~~~~~~~~~~~~" in
  CookieStore_Get id sample_world = Ret (Err ErrCorruptInput) sample_world 0.
Proof. vm_compute. done. Qed.




(** The same through Redis and through the cookie store, for a session
    with JSON's own values. *)
Example redis_roundtrip :
  match RedisStore_Set "session:" 1 redis_world with
  | Ret None w1 _ =>
      match RedisStore_Get "session:" "abc" (with_clock w1 2000) with
      | Ret (Ok p') w2 _ => heap w2 !! p' = Some redis_session
      | _ => False
      end
  | _ => False
  end.
Proof. vm_compute. done. Qed.

Example cookie_roundtrip :
  match CookieStore_Encode 1 redis_world with
  | Ret (Ok value) w1 _ =>
      match CookieStore_Get value (with_clock w1 2000) with
      | Ret (Ok p') w2 _ => heap w2 !! p' = Some redis_session
      | _ => False
      end
  | _ => False
  end.
Proof. vm_compute. done. Qed.

(** Through Redis an integer comes back as a [float64]. *)
Example redis_roundtrip_int :
  let s := mkSession "abc" (Some {[ "user_id" := VInt 123 ]})
                     1000 (1000 + Hour) 1000 in
  let w := mkWorld 1000 [] {[ 1%positive := s ]} ∅ ∅ empty_ctx in
  match RedisStore_Set "session:" 1 w with
  | Ret None w1 _ =>
      match RedisStore_Get "session:" "abc" w1 with
      | Ret (Ok p') w2 _ =>
          (heap w2 !! p') ≫= Data
          = Some ({[ "user_id" := VFloat64 123 ]} : gmap string value)
      | _ => False
      end
  | _ => False
  end.
Proof. vm_compute. done. Qed.

(** *** C3: loading a record whose expiry has passed *)

(** C3, as stated, fails for the in-memory store: [Get] returns
    [ErrSessionExpired] and leaves the record in the table, so the next
    [Get] returns [ErrSessionExpired] again, not [ErrSessionNotFound]. *)
Lemma MemoryStore_Get_keeps_expired :
  MemoryStore_Get "abc" expired_in_memory
  = Ret (Err ErrSessionExpired) expired_in_memory 0 ∧
  sessions expired_in_memory !! "abc" = Some 1%positive.
Proof. vm_compute. done. Qed.

(** C3 (amended): when [Get] finds a record whose expiry has passed it
    returns [ErrSessionExpired]. The Redis store then deletes the
    record, and a later [Get] of the same id returns
    [ErrSessionNotFound]. The in-memory store and the cookie store change
    nothing: the in-memory record stays in the table. *)
Theorem Get_expired_record (b : backend) (w : World) (id : string) :
  holds_expired b w id →
  ∃ w1,
    Get (store_of b) id w = Ret (Err ErrSessionExpired) w1 0 ∧
    match b with
    | Redis_ prefix =>
        w1 = with_redis w (delete (prefix +:+ id) (redis w)) ∧
        ∀ t, Get (store_of b) id (with_clock w1 t)
             = Ret (Err ErrSessionNotFound) (with_clock w1 t) 0
    | _ => w1 = w
    end.
Proof.
  destruct b as [| |prefix]; simpl.
  - intros (p & s & Hid & Hp & Hexp). exists w.
    by rewrite MemoryStore_Get_run, Hid, Hp, Hexp.
  - intros (data & s & Hne & Hdata & Hs & Hexp). exists w.
    rewrite CookieStore_Get_run, Hdata, Hs, Hexp.
    by destruct (decide (id = "")).
  - intros (data & s & Hdata & Hs & Hexp).
    eexists. rewrite RedisStore_Get_run, Hdata, Hs, Hexp.
    split; [reflexivity|]. split; [reflexivity|].
    intros t. rewrite RedisStore_Get_run. simpl.
    unfold Redis.Get. by rewrite RedisFacts.find_delete_eq.
Qed.

Lemma Get_expired_record_witness :
  ∃ w1,
    RedisStore_Get "session:" "abc" expired_in_redis
    = Ret (Err ErrSessionExpired) w1 0 ∧
    w1 = with_redis expired_in_redis
           (delete ("session:" +:+ "abc") (redis expired_in_redis)) ∧
    ∀ t, RedisStore_Get "session:" "abc" (with_clock w1 t)
         = Ret (Err ErrSessionNotFound) (with_clock w1 t) 0.
Proof.
  apply (Get_expired_record (Redis_ "session:") expired_in_redis "abc").
  exists (default "" (Session.Marshal expired_session)), expired_session.
  vm_compute. done.
Defined.

(** *** C4: flash messages *)

(** C4: with a session attached to the context whose [Data] map is not
    nil, after [Flash(c, k, v)] the first [GetFlash(c, k)] returns
    [(v, true)] and removes the entry, and a second [GetFlash(c, k)]
    returns [(nil, false)] and changes nothing; the clock may advance
    between the calls. *)
Theorem Flash_GetFlash_at_most_once (w : World) (p : loc) (s : Session)
    (m : gmap string value) (k : string) (v : value) (t1 t2 : Z) :
  locals (ctx w) !! "session" = Some (ASession p) →
  heap w !! p = Some s →
  Data s = Some m →
  ∃ w1 w2 s2,
    Flash k v w = Ret None w1 0 ∧
    GetFlash k (with_clock w1 t1) = Ret (v, true) w2 0 ∧
    heap w2 !! p = Some s2 ∧
    (Data s2 ≫= (.!! ("_flash_" +:+ k))) = None ∧
    GetFlash k (with_clock w2 t2) = Ret (VNil, false) (with_clock w2 t2) 0.
Proof.
  intros Hctx Hp Hm.
  set (fk := "_flash_" +:+ k).
  set (s1 := mkSession (ID s) (Some (<[fk := v]> m)) (CreatedAt s)
                       (ExpiresAt s) (clock w)).
  set (w1 := with_heap w (<[p := s1]> (heap w))).
  set (s2 := mkSession (ID s) (Some (delete fk (<[fk := v]> m))) (CreatedAt s)
                       (ExpiresAt s) t1).
  set (w2 := with_heap (with_clock w1 t1) (<[p := s2]> (heap w1))).
  exists w1, w2, s2.
  assert (Hp1 : heap (with_clock w1 t1) !! p = Some s1)
    by apply lookup_insert_eq.
  assert (Hp2 : heap (with_clock w2 t2) !! p = Some s2)
    by apply lookup_insert_eq.
  split; [|split; [|split; [|split]]].
  - unfold Flash, bind. rewrite GetSession_run, Hctx. cbv beta iota.
    fold fk. rewrite (Session_Set_run w p s m fk v Hp Hm). done.
  - unfold GetFlash, bind. rewrite GetSession_run.
    change (ctx (with_clock w1 t1)) with (ctx w). rewrite Hctx.
    cbv beta iota. fold fk. rewrite (Session_Get_run _ p s1 fk Hp1).
    cbn [Data s1 mbind option_bind]. rewrite lookup_insert_eq.
    cbv beta iota. cbn [snd].
    rewrite (Session_Delete_run _ p s1 fk Hp1). done.
  - apply lookup_insert_eq.
  - simpl. apply lookup_delete_eq.
  - unfold GetFlash, bind. rewrite GetSession_run.
    change (ctx (with_clock w2 t2)) with (ctx w). rewrite Hctx.
    cbv beta iota. fold fk. rewrite (Session_Get_run _ p s2 fk Hp2).
    cbn [Data s2 mbind option_bind]. rewrite lookup_delete_eq. done.
Qed.

Lemma Flash_GetFlash_at_most_once_witness :
  ∃ w1 w2 s2,
    Flash "notice" (VString "saved") sample_world = Ret None w1 0 ∧
    GetFlash "notice" (with_clock w1 1005) = Ret (VString "saved", true) w2 0 ∧
    heap w2 !! 1%positive = Some s2 ∧
    (Data s2 ≫= (.!! ("_flash_" +:+ "notice"))) = None ∧
    GetFlash "notice" (with_clock w2 1009)
    = Ret (VNil, false) (with_clock w2 1009) 0.
Proof.
  apply (Flash_GetFlash_at_most_once sample_world 1 sample_session ∅
           "notice" (VString "saved") 1005 1009); reflexivity.
Defined.

(** *** C5: regenerating a session *)



(** *** C6: saving an expired session in Redis *)

(** C6, as stated, fails for a session that cannot be serialised: the
    save is refused with the error of [json.Marshal], which is checked
    before the expiry. *)
Lemma RedisStore_Set_marshal_error_first :
  bool_decide (ExpiresAt dead_callback_session
               - clock dead_callback_world <= 0) = true ∧
  RedisStore_Set "session:" 1 dead_callback_world
  = Ret (Some ErrUnsupportedType) dead_callback_world 0.
Proof. vm_compute. done. Qed.

(** C6 (amended): [RedisStore.Set] of a session whose expiry minus the
    current time is not positive fails and leaves the world, hence the
    backend, as it was; the error is [ErrSessionExpired] when the session
    can be serialised, and the error of [json.Marshal] otherwise. *)
Theorem RedisStore_Set_expired (prefix : string) (w : World) (p : loc)
    (s : Session) :
  heap w !! p = Some s →
  ExpiresAt s - clock w <= 0 →
  RedisStore_Set prefix p w
  = Ret (Some (match Marshal s with
               | Some _ => ErrSessionExpired
               | None => ErrUnsupportedType
               end)) w 0.
Proof.
  intros Hp Hexp. rewrite (RedisStore_Set_run _ _ _ _ Hp).
  destruct (Marshal s) as [data|]; [|done].
  assert ((Until (clock w) (ExpiresAt s) <=? 0) = true) as ->; [|done].
  unfold Until. rewrite Sub_nonpos. lia.
Qed.

Lemma RedisStore_Set_expired_witness :
  RedisStore_Set "session:" 1 (with_clock sample_world (1000 + 2 * Hour))
  = Ret (Some ErrSessionExpired) (with_clock sample_world (1000 + 2 * Hour)) 0.
Proof.
  apply (RedisStore_Set_expired "session:"
           (with_clock sample_world (1000 + 2 * Hour)) 1 sample_session).
  - reflexivity.
  - vm_compute. discriminate.
Defined.

(** *** C9: expiry of a new session *)

(** C9, as stated, fails for a negative maximum age: the session is
    expired the moment it is created. *)
Lemma NewSession_negative_age_expired :
  IsExpired 1000 (NewSession 1000 zero32 (-1)) = true.
Proof. reflexivity. Qed.

(** C9 (amended): a session created by [NewSession] with a maximum age
    that is not negative is not expired at its creation time, is not
    expired at any time up to and including [ExpiresAt], and is expired at
    every time strictly after [ExpiresAt]. *)
Theorem NewSession_IsExpired (now : Z) (b : string) (maxAge : Z) (t : Z) :
  0 <= maxAge →
  let S := NewSession now b maxAge in
  IsExpired now S = false ∧
  (t <= ExpiresAt S → IsExpired t S = false) ∧
  (ExpiresAt S < t → IsExpired t S = true).
Proof.
  intros Hage S. unfold IsExpired, After, S, NewSession, Add. simpl.
  repeat split; intros; lia.
Qed.

Lemma NewSession_IsExpired_witness :
  let S := NewSession 1000 zero32 Hour in
  IsExpired 1000 S = false ∧
  (2000 <= ExpiresAt S → IsExpired 2000 S = false) ∧
  (ExpiresAt S < 2000 → IsExpired 2000 S = true).
Proof. apply (NewSession_IsExpired 1000 zero32 Hour 2000). vm_compute. discriminate. Defined.

(** *** C10: what the handler finds in the context *)


(** With no key configured the middleware works with ["session"], and
    the handler's [GetSession] finds the session. *)
Example probe_default_key :
  match Middleware (config_with_key Memory "") probe (empty_world 1000) with
  | Ret err _ calls => err = None ∧ calls = 1%nat
  | Panic => False
  end.
Proof. vm_compute. done. Qed.

(** With another key the handler's [GetSession] finds nothing. *)
Example probe_other_key :
  match Middleware (config_with_key Memory "sess") probe (empty_world 1000) with
  | Ret err _ calls => err = Some (ErrHandler "no session") ∧ calls = 1%nat
  | Panic => False
  end.
Proof. vm_compute. done. Qed.


End SessionFacts.

(** ** Package cache *)

Module CacheFacts.
Import GoTime Json Dyn Runtime Cache CacheMiddleware Vocabulary.
Import JsonFacts RuntimeFacts.
Local Open Scope go_scope.

(** *** [Get] and [Set] of the Redis cache, evaluated *)

Lemma RedisCache_Get_run {D} r (dec : json → option D) key w :
  RedisCache_Get r dec key w = Ret (cache_lookup r dec key w) w 0.
Proof.
  unfold RedisCache_Get, cache_lookup. run.
  destruct (Redis.Get _ _ _) as [[data|]|e]; try done.
  by destruct (parse data ≫= dec).
Qed.

Lemma RedisCache_Set_run {V} r (enc : V → option json) key v ttl w :
  RedisCache_Set r enc key v ttl w =
  match enc v with
  | None => Ret (Some ErrUnsupportedType) w 0
  | Some j =>
      Ret None
          (with_redis w (Redis.Set_ (clock w) (redis w) (prefix r +:+ key)
                                    (print j) ttl)) 0
  end.
Proof. unfold RedisCache_Set. by destruct (enc v). Qed.

(** *** The rounds of [Flush] *)








(** *** C1: the cache middleware *)


(** On anything but a hit the handler is invoked once, and what the
    middleware returns is what the handler returned, in the world the
    handler left: the recorder holds status 0 and no body, so nothing is
    stored, whatever the allow-list. *)
Lemma Middleware_miss_stores_nothing config cache next w err :
  Cache_ config = Some cache →
  cacheable config (ctx w) →
  cache_lookup cache unmarshal_CachedResponse (key_of config (ctx w)) w
  = Err err →
  Middleware config next w =
  match next w with
  | None => Panic
  | Some (e, w1) => Ret e w1 1
  end.
Proof.
  intros Hcache [Hskip Hmeth] Hmiss. unfold Middleware. rewrite Hcache.
  unfold bind at 1, get. rewrite Hskip.
  assert (bool_decide (method (ctx w) ≠ "GET")
          && bool_decide (method (ctx w) ≠ "HEAD") = false) as ->.
  { destruct Hmeth as [-> | ->]; done. }
  unfold bind at 1. rewrite RedisCache_Get_run.
  fold (key_of config (ctx w)). rewrite Hmiss.
  unfold bind at 1, invoke.
  destruct (next w) as [[[e|] w1]|]; try done.
  rewrite andb_false_r. done.
Qed.

(** C1 fails on the code: with the default configuration, on a GET
    request and an empty cache, the first invocation runs the handler,
    which answers 200 with a body, and stores nothing; the second
    invocation, at the same instant, runs the handler again. *)
Theorem Middleware_never_stores_response :
  match Middleware (DefaultCacheConfig (Some default_cache)) hello
                   users_request with
  | Ret e1 w1 calls1 =>
      e1 = None ∧ calls1 = 1%nat ∧
      status (ctx w1) = 200 ∧ body (ctx w1) = Some "hello" ∧
      redis w1 = ∅ ∧
      match Middleware (DefaultCacheConfig (Some default_cache)) hello w1 with
      | Ret e2 w2 calls2 => e2 = None ∧ calls2 = 1%nat ∧ redis w2 = ∅
      | Panic => False
      end
  | Panic => False
  end.
Proof. vm_compute. done. Qed.

(** The replay itself works: on a response stored by hand the middleware
    answers from the cache and does not invoke the handler. *)
Example Middleware_replays_stored_response :
  let stored := mkCachedResponse 200 (Some {[ "Content-Type" := "text/plain" ]})
                                 (Some "hello") in
  match RedisCache_Set default_cache marshal_CachedResponse "GET:/users" stored
                       (5 * Minute) users_request with
  | Ret None w1 _ =>
      match Middleware (DefaultCacheConfig (Some default_cache)) hello w1 with
      | Ret e w2 calls =>
          e = None ∧ calls = 0%nat ∧
          status (ctx w2) = 200 ∧ body (ctx w2) = Some "hello" ∧
          headers (ctx w2) !! "Content-Type" = Some "text/plain"
      | Panic => False
      end
  | _ => False
  end.
Proof. vm_compute. done. Qed.

(** *** C7: Remember *)

(** C7: one call of [Remember] invokes its compute function at most once:
    not at all when the lookup hits (or fails otherwise than by a miss),
    exactly once when it misses. When the compute function returns an
    error, that error is returned and the world, hence the cache, is as
    the compute function left it: nothing is stored. *)
Theorem Remember_computes_at_most_once {D} (r : RedisCache)
    (dec : json → option D) (key : string) (ttl : Z)
    (fn : callback (result value)) (w : World) :
  remembers r dec key ttl fn w.
Proof.
  unfold remembers, RedisCache_Remember, bind at 1.
  rewrite RedisCache_Get_run.
  destruct (cache_lookup r dec key w) as [d|err].
  { simpl. split; [lia|done]. }
  destruct (decide (err = ErrCacheMiss)) as [->|Hne].
  2:{ destruct (decide (err ≠ ErrCacheMiss)); [|done].
      simpl. split; [lia|done]. }
  destruct (decide (ErrCacheMiss ≠ ErrCacheMiss)); [done|].
  unfold bind at 1, invoke.
  destruct (fn w) as [[computed w1]|]; [|done].
  destruct computed as [v|e].
  2:{ simpl. split; [lia|]. split; [done|]. by exists (Err e), w1. }
  unfold bind at 1. rewrite RedisCache_Set_run.
  destruct (marshal_value v) as [j|] eqn:Hj.
  - rewrite parse_print. simpl.
    destruct (dec j) as [d|] eqn:Hd; simpl;
      (split; [lia|]; split; [done|]; exists (Ok v), w1; split; [done|];
       by rewrite Hj, Hd).
  - simpl. split; [lia|]. split; [done|].
    exists (Ok v), w1. by rewrite Hj.
Qed.

(** *** C8: flushing tags *)



(** The scenario of the specification: a value stored under a tag is gone
    after the tag is flushed. *)
Example set_flush_get :
  let r := mkRedisCache "cache:" in
  let t := Tags r ["products"] in
  match TaggedCache_Set t marshal_value "product:1" (VString "lamp")
                        (10 * Minute) (empty_world 1000) with
  | Ret None w1 _ =>
      cache_lookup r (λ j, Some (unmarshal_value j)) "product:1" w1
      = Ok (VString "lamp") ∧
      match TaggedCache_Flush t w1 with
      | Ret None w2 _ =>
          cache_lookup r (λ j, Some (unmarshal_value j)) "product:1" w2
          = Err ErrCacheMiss
      | _ => False
      end
  | _ => False
  end.
Proof. vm_compute. done. Qed.

End CacheFacts.

(* ===================================================================== *)
(** * Further properties of the code *)
(* ===================================================================== *)

(** ** The session entity (store.go) *)

Module EntityFacts.
Import GoTime Json Dyn Session Runtime SessionStore Vocabulary Scenarios.
Import RuntimeFacts SessionFacts.
Local Open Scope go_scope.

Lemma Session_Clear_run w p s :
  heap w !! p = Some s →
  Session_Clear p w =
  Ret () (with_heap w (<[p := mkSession (ID s) (Some ∅) (CreatedAt s)
                                        (ExpiresAt s) (clock w)]>
                         (heap w))) 0.
Proof.
  intros Hp. unfold Session_Clear. run.
  repeat (first [rewrite Hp | rewrite lookup_insert_eq]; simpl).
  unfold with_heap. simpl. by rewrite insert_insert_eq.
Qed.



(** X2: a session whose [Data] map is nil, as [json.Unmarshal] leaves it when
    the document has no data: [s.Set] panics, [s.Get] returns
    [(nil, false)], [s.Delete] only marks the session as updated, and
    after [s.Clear()] the session takes values again. *)
Theorem Session_nil_Data (w : World) (p : loc) (s : Session) (key : string)
    (v : value) :
  heap w !! p = Some s →
  Data s = None →
  Session_Set p key v w = Panic ∧
  Session_Get p key w = Ret (VNil, false) w 0 ∧
  Session_Delete p key w
  = Ret () (with_heap w (<[p := with_UpdatedAt s (clock w)]> (heap w))) 0 ∧
  ∃ w1 w2, Session_Clear p w = Ret () w1 0 ∧
           Session_Set p key v w1 = Ret () w2 0 ∧
           Session_Get p key w2 = Ret (v, true) w2 0.
Proof.
  intros Hp Hd. split.
  { unfold Session_Set. run. by rewrite Hp, Hd. }
  split.
  { rewrite (Session_Get_run w p s key Hp). by rewrite Hd. }
  split.
  { rewrite (Session_Delete_run w p s key Hp). rewrite Hd.
    unfold with_UpdatedAt. by rewrite Hd. }
  eexists _, _. rewrite (Session_Clear_run w p s Hp). split; [done|].
  erewrite Session_Set_run by (simpl; first [apply lookup_insert_eq | done]).
  split; [done|].
  erewrite Session_Get_run by (simpl; apply lookup_insert_eq).
  simpl. by rewrite lookup_insert_eq.
Qed.

Lemma Session_nil_Data_witness :
  Session_Set 1 "user" (VString "ann") nil_data_world = Panic ∧
  Session_Get 1 "user" nil_data_world = Ret (VNil, false) nil_data_world 0 ∧
  Session_Delete 1 "user" nil_data_world
  = Ret () (with_heap nil_data_world
              (<[1%positive := with_UpdatedAt nil_data_session
                                 (clock nil_data_world)]>
                 (heap nil_data_world))) 0 ∧
  ∃ w1 w2, Session_Clear 1 nil_data_world = Ret () w1 0 ∧
           Session_Set 1 "user" (VString "ann") w1 = Ret () w2 0 ∧
           Session_Get 1 "user" w2 = Ret (VString "ann", true) w2 0.
Proof.
  apply (Session_nil_Data nil_data_world 1 nil_data_session "user"
           (VString "ann")); reflexivity.
Defined.

(** A document without data decodes to such a session. *)
Example Unmarshal_without_data :
  Data <$> Unmarshal (print (JObj [("id", JStr "abc")])) = Some None.
Proof. reflexivity. Qed.

End EntityFacts.

(** ** The three stores (store.go, redis.go) *)

Module StoreFacts.
Import GoTime Json Dyn Session Runtime SessionStore Vocabulary Scenarios.
Import GoTimeFacts JsonFacts DynFacts RedisFacts CodecFacts RuntimeFacts
  SessionFacts.
Local Open Scope go_scope.

(** *** Keys and expirations *)

Lemma append_inj (a b c : string) : a +:+ b = a +:+ c → b = c.
Proof. induction a as [|x a IH]; simpl; [done|]. intros [= H]. by apply IH. Qed.

Lemma px_le_max ttl : 0 < ttl → Redis.px ttl <= Z.max ttl Millisecond.
Proof.
  intros Httl. unfold Redis.px, Millisecond. case_match; [lia|].
  pose proof (Z.mul_div_le ttl 1000000). lia.
Qed.

(** Whatever the expiration, a key is there right after [SET]. *)
Lemma find_Set_live now d key data ttl :
  ∃ dl, Redis.find now (Redis.Set_ now d key data ttl) key
        = Some (Redis.Entry (Redis.RString data) dl).
Proof.
  unfold Redis.Set_. rewrite find_insert_eq. unfold Redis.live. simpl.
  destruct (0 <? ttl) eqn:Httl.
  { pose proof (px_pos ttl ltac:(lia)).
    assert ((now <? now + Redis.px ttl) = true) as -> by lia. eauto. }
  destruct (ttl =? Redis.KeepTTL); [|eauto].
  unfold Redis.find. destruct (d !! key) as [e|]; [|eauto].
  unfold Redis.live. destruct (Redis.deadline e) as [dl|] eqn:Hdl; [|by rewrite Hdl; eauto].
  destruct (now <? dl) eqn:Hlive; rewrite ?Hdl, ?Hlive; eauto.
Qed.

(** A key written with expiration [ttl] is there at the times [within]
    names. *)
Lemma find_Set_within now d key data ttl t :
  within ttl now t →
  ∃ dl, Redis.find t (Redis.Set_ now d key data ttl) key
        = Some (Redis.Entry (Redis.RString data) dl).
Proof.
  intros [Hkeep Hin]. unfold Redis.Set_. rewrite find_insert_eq.
  unfold Redis.live. simpl.
  destruct (0 <? ttl) eqn:Httl.
  { assert ((t <? now + Redis.px ttl) = true) as -> by lia. eauto. }
  assert ((ttl =? Redis.KeepTTL) = false) as -> by lia. eauto.
Qed.

(** A key written with a positive expiration is gone once that has
    passed. *)
Lemma find_Set_gone now d key data ttl t :
  0 < ttl → now + Redis.px ttl <= t →
  Redis.find t (Redis.Set_ now d key data ttl) key = None.
Proof.
  intros Httl Ht. unfold Redis.Set_. rewrite find_insert_eq.
  assert ((0 <? ttl) = true) as -> by lia. unfold Redis.live. simpl.
  by assert ((t <? now + Redis.px ttl) = false) as -> by lia.
Qed.

(** *** What [json.Unmarshal] yields *)

Lemma json_native_unmarshal j : json_native (unmarshal_value j) = true.
Proof.
  induction j as [|b|n|s|l IH|kvs IH] using json_nested_ind; try done.
  - simpl. induction IH as [|x l Hx _ IHl]; simpl; [done|].
    by rewrite Hx, IHl.
  - simpl. induction IH as [|[k x] l Hx _ IHl]; simpl; [done|].
    simpl in Hx. by rewrite Hx, IHl.
Qed.

Lemma obj_to_map_native kvs (m0 : gmap string value) k v :
  (∀ k v, m0 !! k = Some v → json_native v = true) →
  obj_to_map kvs m0 !! k = Some v → json_native v = true.
Proof.
  intros Hm0. unfold obj_to_map.
  intros [Hl|[_ Hr]]%lookup_union_Some_raw; [|by eapply Hm0].
  apply elem_of_list_to_map_2 in Hl.
  apply (proj1 (elem_of_reverse _ _)) in Hl.
  apply list_elem_of_fmap in Hl as ([k0 j] & [= -> ->] & _).
  apply json_native_unmarshal.
Qed.

Lemma set_field_native s k v s' :
  native s → set_field s k v = Some s' → native s'.
Proof.
  intros Hs. unfold set_field.
  repeat case_decide.
  - destruct v; intros [= <-]; done.
  - destruct v as [| | | | |kvs]; intros [= <-]; try done.
    intros m k' v' [= <-] Hk.
    eapply obj_to_map_native; [|done].
    intros k0 v0 Hk0. destruct (Data s) as [m0|] eqn:Hm0; simpl in Hk0.
    + by eapply Hs.
    + by rewrite lookup_empty in Hk0.
  - destruct (unmarshal_time v _); intros [= <-]; done.
  - destruct (unmarshal_time v _); intros [= <-]; done.
  - destruct (unmarshal_time v _); intros [= <-]; done.
  - by intros [= <-].
Qed.

(** A session read from a document holds only the kinds of values that
    [json.Unmarshal] makes. *)
Lemma Unmarshal_native data s : Unmarshal data = Some s → native s.
Proof.
  unfold Unmarshal. destruct (parse data) as [j|]; [|done]. simpl.
  unfold unmarshal_Session. destruct j as [| | | | |kvs]; try done.
  { intros [= <-]. intros m k v [=]. }
  assert (native zero_Session) as H0 by (intros m k v [=]).
  revert H0. generalize zero_Session as s0. revert s.
  induction kvs as [|[k v] kvs IH]; intros s s0 H0; simpl.
  { by intros [= <-]. }
  destruct (set_field s0 k v) as [s1|] eqn:Hs1.
  - apply IH. by eapply set_field_native.
  - clear. induction kvs as [|kv kvs IH]; simpl; [done|]. exact IH.
Qed.

(** *** Deleting and loading *)

(** X3: [Delete] then [Get], for every backend. After the in-memory store or
    the Redis store has deleted an identifier, [Get] of it returns
    [ErrSessionNotFound] at any later time, whether or not a record was
    there; no other record changes. The cookie store's [Delete] changes
    nothing, so a cookie value that decoded before still does. *)
Theorem Delete_then_Get (b : backend) (w : World) (id : string) :
  ∃ w1,
    Delete (store_of b) id w = Ret None w1 0 ∧
    match b with
    | Memory =>
        (∀ t, MemoryStore_Get id (with_clock w1 t)
              = Ret (Err ErrSessionNotFound) (with_clock w1 t) 0) ∧
        (∀ id', id' ≠ id → sessions w1 !! id' = sessions w !! id') ∧
        w1 = with_sessions w (sessions w1)
    | Cookie => w1 = w
    | Redis_ prefix =>
        (∀ t, RedisStore_Get prefix id (with_clock w1 t)
              = Ret (Err ErrSessionNotFound) (with_clock w1 t) 0) ∧
        (∀ id', id' ≠ id →
                redis w1 !! (prefix +:+ id') = redis w !! (prefix +:+ id')) ∧
        w1 = with_redis w (redis w1)
    end.
Proof.
  destruct b as [| |prefix]; simpl.
  - eexists. split; [reflexivity|]. simpl. repeat split.
    + intros t. rewrite MemoryStore_Get_run. simpl.
      by rewrite lookup_delete_eq.
    + intros id' Hne. by rewrite lookup_delete_ne.
  - by exists w.
  - eexists. split; [reflexivity|]. simpl. repeat split.
    + intros t. rewrite RedisStore_Get_run. simpl.
      unfold Redis.Get. by rewrite find_delete_eq.
    + intros id' Hne. rewrite lookup_delete_ne; [done|].
      intros Heq. by apply append_inj in Heq.
Qed.

(** *** Sweeping the in-memory table *)

Lemma MemoryStore_Cleanup_run w :
  table_sound w →
  MemoryStore_Cleanup w =
  Ret None
      (with_sessions w
         (filter (λ kv, stays (clock w) (heap w) kv.2 = true) (sessions w))) 0.
Proof.
  intros Hw. unfold MemoryStore_Cleanup. run.
  by rewrite bool_decide_eq_true_2.
Qed.

Lemma lookup_swept w id :
  table_sound w →
  filter (λ kv : string * loc, stays (clock w) (heap w) kv.2 = true)
         (sessions w) !! id =
  match sessions w !! id with
  | Some p =>
      match heap w !! p with
      | Some s => if IsExpired (clock w) s then None else Some p
      | None => None
      end
  | None => None
  end.
Proof.
  intros Hw. rewrite map_lookup_filter.
  destruct (sessions w !! id) as [p|] eqn:Hid; simpl; [|done].
  destruct (Hw id p Hid) as [s Hs]. rewrite Hs.
  unfold stays, IsExpired. rewrite Hs.
  by destruct (After (clock w) (ExpiresAt s)).
Qed.

(** X5: [Cleanup] of the in-memory store removes the records whose expiry has
    passed and no other: afterwards [Get] answers [ErrSessionNotFound]
    where it answered [ErrSessionExpired], and answers as before
    everywhere else. No session object changes, and a second [Cleanup] at
    the same time changes nothing. *)
Theorem MemoryStore_Cleanup_removes_expired (w : World) :
  table_sound w →
  ∃ w1,
    MemoryStore_Cleanup w = Ret None w1 0 ∧
    w1 = with_sessions w (sessions w1) ∧
    (∀ id,
       MemoryStore_Get id w1 =
       match MemoryStore_Get id w with
       | Ret (Err ErrSessionExpired) _ _ => Ret (Err ErrSessionNotFound) w1 0
       | Ret r _ n => Ret r w1 n
       | Panic => Panic
       end) ∧
    MemoryStore_Cleanup w1 = Ret None w1 0.
Proof.
  intros Hw. eexists. rewrite (MemoryStore_Cleanup_run w Hw).
  split; [done|]. split; [done|]. split.
  - intros id. rewrite !MemoryStore_Get_run. simpl.
    rewrite (lookup_swept w id Hw).
    destruct (sessions w !! id) as [p|] eqn:Hid; [|done].
    destruct (Hw id p Hid) as [s Hs]. rewrite Hs.
    destruct (IsExpired (clock w) s) eqn:He; [done|].
    by rewrite Hs, He.
  - set (w1 := with_sessions w _).
    assert (table_sound w1) as Hw1.
    { intros id p. simpl. intros [H _]%map_lookup_filter_Some. by eapply Hw. }
    rewrite (MemoryStore_Cleanup_run w1 Hw1).
    assert (filter (λ kv : string * loc,
                      stays (clock w1) (heap w1) kv.2 = true) (sessions w1)
            = sessions w1) as ->; [|done].
    apply map_eq. intros id.
    rewrite (lookup_swept w1 id Hw1). simpl.
    rewrite (lookup_swept w id Hw).
    destruct (sessions w !! id) as [p|] eqn:Hid; [|done].
    destruct (Hw id p Hid) as [s Hs]. rewrite Hs.
    destruct (IsExpired (clock w) s) eqn:He; [done|].
    by rewrite Hs, He.
Qed.

Lemma MemoryStore_Cleanup_removes_expired_witness :
  ∃ w1,
    MemoryStore_Cleanup expired_in_memory = Ret None w1 0 ∧
    w1 = with_sessions expired_in_memory (sessions w1) ∧
    (∀ id,
       MemoryStore_Get id w1 =
       match MemoryStore_Get id expired_in_memory with
       | Ret (Err ErrSessionExpired) _ _ => Ret (Err ErrSessionNotFound) w1 0
       | Ret r _ n => Ret r w1 n
       | Panic => Panic
       end) ∧
    MemoryStore_Cleanup w1 = Ret None w1 0.
Proof.
  apply (MemoryStore_Cleanup_removes_expired expired_in_memory).
  intros id p. unfold expired_in_memory. simpl.
  intros [<- <-]%lookup_singleton_Some. by rewrite lookup_singleton_eq.
Defined.

End StoreFacts.

(** ** Loading, touching and the lifetime of a record *)

Module LifetimeFacts.
Import GoTime Json Dyn Session Runtime SessionStore Vocabulary Scenarios.
Import GoTimeFacts JsonFacts DynFacts RedisFacts CodecFacts RuntimeFacts
  SessionFacts StoreFacts.
Local Open Scope go_scope.

Lemma fresh_loc_None (h : gmap loc Session) : h !! fresh (dom h) = None.
Proof. apply not_elem_of_dom, is_fresh. Qed.

Lemma with_Data_id s : with_Data s (Data s) = s.
Proof. by destruct s. Qed.

(** A session with JSON's own values is read back as it was written. *)
Lemma Unmarshal_Marshal_native s data :
  native s → Marshal s = Some data → Unmarshal data = Some s.
Proof.
  intros Hs Hdata. rewrite (Unmarshal_Marshal s data Hdata).
  by rewrite (native_image_Data s Hs), with_Data_id.
Qed.

Lemma native_Marshal s : native s → ∃ data, Marshal s = Some data.
Proof. intros Hs. by apply serialisable_Marshal, native_serialisable. Qed.

Lemma RedisStore_Get_found prefix w id data dl s :
  Redis.find (clock w) (redis w) (prefix +:+ id)
  = Some (Redis.Entry (Redis.RString data) dl) →
  Unmarshal data = Some s →
  RedisStore_Get prefix id w =
  if IsExpired (clock w) s then
    Ret (Err ErrSessionExpired)
        (with_redis w (delete (prefix +:+ id) (redis w))) 0
  else
    Ret (Ok (fresh (dom (heap w))))
        (with_heap w (<[fresh (dom (heap w)) := s]> (heap w))) 0.
Proof.
  intros Hfind Hs. rewrite RedisStore_Get_run. unfold Redis.Get.
  by rewrite Hfind, Hs.
Qed.

Lemma RedisStore_Get_gone prefix w id :
  Redis.find (clock w) (redis w) (prefix +:+ id) = None →
  RedisStore_Get prefix id w = Ret (Err ErrSessionNotFound) w 0.
Proof.
  intros Hfind. rewrite RedisStore_Get_run. unfold Redis.Get.
  by rewrite Hfind.
Qed.

Lemma RedisStore_SetWithTTL_run prefix w p s ttl :
  heap w !! p = Some s →
  RedisStore_SetWithTTL prefix p ttl w =
  match Marshal s with
  | None => Ret (Some ErrUnsupportedType) w 0
  | Some data =>
      Ret None
          (with_redis w
             (Redis.Set_ (clock w) (redis w) (prefix +:+ ID s) data ttl)) 0
  end.
Proof.
  intros Hp. unfold RedisStore_SetWithTTL. run. rewrite Hp.
  by destruct (Marshal s).
Qed.

(** The expiration that [Set] gives the key ends no later than a
    millisecond after the session's expiry. *)
Lemma Set_deadline_bound now expires :
  0 < Until now expires →
  now + Redis.px (Until now expires) <= expires + Millisecond.
Proof.
  intros Httl. pose proof (px_le_max _ Httl) as Hpx.
  assert (now < expires) as Hlt.
  { apply Z.ltb_lt. rewrite <- Sub_pos. apply Z.ltb_lt. exact Httl. }
  pose proof (Sub_le expires now ltac:(lia)) as Hsub.
  unfold Until in *. unfold Millisecond in *. lia.
Qed.

(** *** What [Get] returns *)

(** X6: when [Get] returns a session, for any backend: it invoked nothing,
    and the session is not expired at the time of the call. The in-memory
    store returns the pointer in its table and changes nothing; the
    cookie store and the Redis store return a new object, which holds
    only the kinds of values that [json.Unmarshal] makes, and change
    nothing else. *)
Theorem Get_returns_live_session (b : backend) (w : World) (id : string)
    (p : loc) (w' : World) (n : nat) :
  Get (store_of b) id w = Ret (Ok p) w' n →
  n = 0%nat ∧
  ∃ s, heap w' !! p = Some s ∧ IsExpired (clock w) s = false ∧
       match b with
       | Memory => w' = w ∧ sessions w !! id = Some p
       | _ => heap w !! p = None ∧
              w' = with_heap w (<[p := s]> (heap w)) ∧ native s
       end.
Proof.
  destruct b as [| |prefix]; simpl.
  - rewrite MemoryStore_Get_run.
    destruct (sessions w !! id) as [q|] eqn:Hid; [|done].
    destruct (heap w !! q) as [s|] eqn:Hq; [|done].
    destruct (IsExpired (clock w) s) eqn:He; [done|].
    intros [= <- <- <-]. split; [done|]. by exists s.
  - rewrite CookieStore_Get_run.
    destruct (decide (id = "")); [done|].
    destruct (Base64.DecodeString _ _) as [data|]; [|done].
    destruct (Unmarshal data) as [s|] eqn:Hs; [|done].
    destruct (IsExpired (clock w) s) eqn:He; [done|].
    intros [= <- <- <-]. split; [done|]. exists s. simpl.
    rewrite lookup_insert_eq. repeat split; try done.
    + apply fresh_loc_None.
    + by eapply Unmarshal_native.
  - rewrite RedisStore_Get_run.
    destruct (Redis.Get _ _ _) as [[data|]|e]; try done.
    destruct (Unmarshal data) as [s|] eqn:Hs; [|done].
    destruct (IsExpired (clock w) s) eqn:He; [done|].
    intros [= <- <- <-]. split; [done|]. exists s. simpl.
    rewrite lookup_insert_eq. repeat split; try done.
    + apply fresh_loc_None.
    + by eapply Unmarshal_native.
Qed.

Lemma Get_returns_live_session_witness :
  0%nat = 0%nat ∧
  ∃ s, heap stored_in_memory !! 1%positive = Some s ∧
       IsExpired (clock stored_in_memory) s = false ∧
       (stored_in_memory = stored_in_memory ∧
        sessions stored_in_memory !! "abc" = Some 1%positive).
Proof.
  apply (Get_returns_live_session Memory stored_in_memory "abc" 1
           stored_in_memory 0).
  reflexivity.
Defined.

(** *** The lifetime of a record in Redis *)

(** X7: a record that [RedisStore.Set] wrote is gone from Redis, of itself, a
    millisecond after the session's expiry at the latest: from then on
    [Get] returns [ErrSessionNotFound] and changes nothing. *)
Theorem RedisStore_Set_forgets_at_expiry (prefix : string) (w : World)
    (p : loc) (s : Session) (w1 : World) (t : Z) :
  heap w !! p = Some s →
  RedisStore_Set prefix p w = Ret None w1 0 →
  ExpiresAt s + Millisecond <= t →
  RedisStore_Get prefix (ID s) (with_clock w1 t)
  = Ret (Err ErrSessionNotFound) (with_clock w1 t) 0.
Proof.
  intros Hp Hset Ht. rewrite (RedisStore_Set_run _ _ _ _ Hp) in Hset.
  destruct (Marshal s) as [data|]; [|done].
  destruct (Until (clock w) (ExpiresAt s) <=? 0) eqn:Httl; [done|].
  injection Hset as <-. apply RedisStore_Get_gone. simpl.
  apply find_Set_gone; [lia|].
  pose proof (Set_deadline_bound (clock w) (ExpiresAt s) ltac:(lia)). lia.
Qed.

Lemma RedisStore_Set_forgets_at_expiry_witness :
  RedisStore_Get "session:" (ID redis_session)
    (with_clock
       (with_redis redis_world
          (Redis.Set_ 1000 ∅ "session:abc"
             (default "" (Marshal redis_session)) Hour))
       (1000 + Hour + Millisecond))
  = Ret (Err ErrSessionNotFound)
        (with_clock
           (with_redis redis_world
              (Redis.Set_ 1000 ∅ "session:abc"
                 (default "" (Marshal redis_session)) Hour))
           (1000 + Hour + Millisecond)) 0.
Proof.
  apply (RedisStore_Set_forgets_at_expiry "session:" redis_world 1
           redis_session).
  - reflexivity.
  - vm_compute. reflexivity.
  - vm_compute. discriminate.
Defined.

(** X8: [SetWithTTL] does not look at the session's expiry: it writes the
    record of a session that is already expired, whatever the expiration
    asked for. The next [Get] finds the record, returns
    [ErrSessionExpired] and deletes it. *)
Theorem RedisStore_SetWithTTL_dead_record (prefix : string) (w : World)
    (p : loc) (s : Session) (ttl : Z) :
  heap w !! p = Some s →
  serialisable s →
  IsExpired (clock w) s = true →
  ∃ w1 w2,
    RedisStore_SetWithTTL prefix p ttl w = Ret None w1 0 ∧
    stored (Redis_ prefix) w1 (ID s) ∧
    RedisStore_Get prefix (ID s) w1 = Ret (Err ErrSessionExpired) w2 0 ∧
    ¬ stored (Redis_ prefix) w2 (ID s).
Proof.
  intros Hp Hser He.
  destruct (serialisable_Marshal s Hser) as [data Hdata].
  rewrite (RedisStore_SetWithTTL_run _ _ _ _ _ Hp), Hdata.
  destruct (find_Set_live (clock w) (redis w) (prefix +:+ ID s) data ttl)
    as [dl Hfind].
  eexists _, _. split; [reflexivity|]. split.
  { simpl. rewrite Hfind. by eexists. }
  erewrite RedisStore_Get_found;
    [|exact Hfind|exact (Unmarshal_Marshal _ _ Hdata)].
  unfold IsExpired in *. simpl. rewrite He. split; [reflexivity|].
  simpl. rewrite find_delete_eq. by intros [? ?].
Qed.

Lemma RedisStore_SetWithTTL_dead_record_witness :
  ∃ w1 w2,
    RedisStore_SetWithTTL "session:" 1 Hour expired_in_memory
    = Ret None w1 0 ∧
    stored (Redis_ "session:") w1 (ID expired_session) ∧
    RedisStore_Get "session:" (ID expired_session) w1
    = Ret (Err ErrSessionExpired) w2 0 ∧
    ¬ stored (Redis_ "session:") w2 (ID expired_session).
Proof.
  apply (RedisStore_SetWithTTL_dead_record "session:" expired_in_memory 1
           expired_session Hour).
  - reflexivity.
  - intros m k v [= <-] Hk. by rewrite lookup_empty in Hk.
  - reflexivity.
Defined.



End LifetimeFacts.

(** ** Touching a session; shared objects and copies *)

Module TouchFacts.
Import GoTime Json Dyn Session Runtime SessionStore Vocabulary Scenarios.
Import GoTimeFacts JsonFacts DynFacts RedisFacts CodecFacts RuntimeFacts
  SessionFacts StoreFacts LifetimeFacts.
Local Open Scope go_scope.

Lemma MemoryStore_Touch_run w id :
  MemoryStore_Touch id w =
  match sessions w !! id with
  | None => Ret (Some ErrSessionNotFound) w 0
  | Some p =>
      match heap w !! p with
      | None => Panic
      | Some s =>
          Ret None
              (with_heap w (<[p := with_UpdatedAt s (clock w)]> (heap w))) 0
      end
  end.
Proof.
  unfold MemoryStore_Touch. run.
  destruct (sessions w !! id) as [p|]; [|done]. simpl.
  destruct (heap w !! p) as [s|] eqn:Hp; [|done]. simpl. by rewrite Hp.
Qed.

(** X10: [Touch] of the Redis store, for a record whose session is not yet at
    its expiry and is filed under its own identifier: the record is
    written again with [UpdatedAt] set to the time of the call and
    everything else as it was, the expiry included. So the key still
    disappears a millisecond after that expiry at the latest. *)
Theorem RedisStore_Touch_rewrites_record (prefix : string) (w : World)
    (id data : string) (s : Session) :
  Redis.Get (clock w) (redis w) (prefix +:+ id) = Ok (Some data) →
  Unmarshal data = Some s →
  ID s = id →
  clock w < ExpiresAt s →
  ∃ w1 data',
    RedisStore_Touch prefix id w = Ret None w1 0 ∧
    Redis.Get (clock w) (redis w1) (prefix +:+ id) = Ok (Some data') ∧
    Unmarshal data' = Some (with_UpdatedAt s (clock w)) ∧
    ∀ t, ExpiresAt s + Millisecond <= t →
         RedisStore_Get prefix id (with_clock w1 t)
         = Ret (Err ErrSessionNotFound) (with_clock w1 t) 0.
Proof.
  intros Hget Hs Hid Hnow.
  pose proof (Unmarshal_native _ _ Hs) as Hnat.
  set (s' := with_UpdatedAt s (clock w)).
  assert (native s') as Hnat' by exact Hnat.
  destruct (native_Marshal s' Hnat') as [data' Hdata'].
  assert (0 < Until (clock w) (ExpiresAt s)) as Httl.
  { apply Z.ltb_lt. unfold Until. rewrite Sub_pos. lia. }
  unfold RedisStore_Touch, bind at 1.
  rewrite RedisStore_Get_run, Hget, Hs.
  unfold IsExpired, After.
  assert ((ExpiresAt s <? clock w) = false) as -> by lia.
  set (q := fresh (dom (heap w))).
  unfold bind at 1, deref. simpl. rewrite lookup_insert_eq.
  unfold bind at 1, Now. simpl.
  unfold bind at 1, assign. simpl. rewrite lookup_insert_eq.
  rewrite insert_insert_eq.
  erewrite RedisStore_Set_run by (simpl; apply lookup_insert_eq).
  fold s'. rewrite Hdata'. simpl.
  assert ((Until (clock w) (ExpiresAt s) <=? 0) = false) as -> by lia.
  simpl. eexists _, data'. split; [reflexivity|]. simpl. rewrite Hid.
  split.
  { unfold Redis.Get.
    by rewrite (find_Set_eq (clock w) (redis w) (prefix +:+ id) data' _ Httl). }
  split; [by apply Unmarshal_Marshal_native|].
  intros t Ht. apply RedisStore_Get_gone. simpl.
  apply find_Set_gone; [done|].
  pose proof (Set_deadline_bound (clock w) (ExpiresAt s) Httl). lia.
Qed.

Lemma RedisStore_Touch_rewrites_record_witness :
  ∃ w1 data',
    RedisStore_Touch "session:" "abc" touched_world = Ret None w1 0 ∧
    Redis.Get (clock touched_world) (redis w1) ("session:" +:+ "abc")
    = Ok (Some data') ∧
    Unmarshal data' = Some (with_UpdatedAt redis_session (clock touched_world)) ∧
    ∀ t, ExpiresAt redis_session + Millisecond <= t →
         RedisStore_Get "session:" "abc" (with_clock w1 t)
         = Ret (Err ErrSessionNotFound) (with_clock w1 t) 0.
Proof.
  apply (RedisStore_Touch_rewrites_record "session:" touched_world "abc"
           (default "" (Marshal redis_session)) redis_session).
  - vm_compute. reflexivity.
  - vm_compute. reflexivity.
  - reflexivity.
  - vm_compute. reflexivity.
Defined.



End TouchFacts.

(** ** The session middleware (middleware.go) *)

Module MiddlewareFacts.
Import GoTime Json Dyn Session Runtime SessionStore SessionMiddleware
  Vocabulary Scenarios.
Import GoTimeFacts JsonFacts DynFacts RedisFacts CodecFacts RuntimeFacts
  SessionFacts StoreFacts LifetimeFacts TouchFacts.
Local Open Scope go_scope.

(** *** The two halves of [Middleware] *)

Lemma Middleware_after_resolve config store next w p w0 n :
  Store_ config = Some store →
  resolve (normalise config) store w = Ret (Ok p) w0 n →
  Middleware config next w
  = continue_with n (let* err := invoke next in
                     persist (normalise config) store err) w0.
Proof.
  intros Hstore Hres. unfold Middleware, continue_with. rewrite Hstore.
  unfold bind at 1. by rewrite Hres.
Qed.



Lemma DestroySession_run config store w p s :
  Store_ config = Some store →
  locals (ctx w) !! "session" = Some (ASession p) →
  heap w !! p = Some s →
  DestroySession config w =
  match Delete store (ID s) w with
  | Panic => Panic
  | Ret (Some e) w1 n => Ret (Some e) w1 n
  | Ret None w1 n =>
      Ret None
          (with_ctx w1 (with_setCookies (ctx w1)
                          (setCookies (ctx w1) ++ [deletion_cookie config])))
          n
  end.
Proof.
  intros Hstore Hctx Hp. unfold DestroySession, bind at 1.
  rewrite GetSession_run, Hctx. unfold bind at 1, deref. rewrite Hp.
  unfold bind at 1, the_store. rewrite Hstore. unfold ret at 1.
  unfold bind at 1.
  destruct (Delete store (ID s) w) as [|[e|] w1 n]; [done|..];
    unfold bind, c_Cookie, modify, ret; simpl; by rewrite Nat.add_0_r.
Qed.

(** *** Without a session *)

(** X11: when the context holds no [*Session] under ["session"], [Flash],
    [DestroySession] and [RegenerateSession] return [ErrSessionNotFound]
    and [GetFlash] returns [(nil, false)]; none of them changes anything
    or touches the store, which may even be nil. *)
Theorem no_session_attached (config : Config) (w : World) (key : string)
    (v : value) :
  (∀ p, locals (ctx w) !! "session" ≠ Some (ASession p)) →
  Flash key v w = Ret (Some ErrSessionNotFound) w 0 ∧
  GetFlash key w = Ret (VNil, false) w 0 ∧
  DestroySession config w = Ret (Some ErrSessionNotFound) w 0 ∧
  RegenerateSession config w = Ret (Some ErrSessionNotFound) w 0.
Proof.
  intros Hno.
  assert (GetSession w = Ret (Err ErrSessionNotFound) w 0) as Hget.
  { rewrite GetSession_run.
    destruct (locals (ctx w) !! "session") as [[p| |]|] eqn:Hk; try done.
    by destruct (Hno p). }
  unfold Flash, GetFlash, DestroySession, RegenerateSession, regenerate_save.
  unfold bind. by rewrite Hget.
Qed.

Lemma no_session_attached_witness :
  Flash "notice" (VString "saved") (empty_world 1000)
  = Ret (Some ErrSessionNotFound) (empty_world 1000) 0 ∧
  GetFlash "notice" (empty_world 1000) = Ret (VNil, false) (empty_world 1000) 0 ∧
  DestroySession (DefaultConfig None) (empty_world 1000)
  = Ret (Some ErrSessionNotFound) (empty_world 1000) 0 ∧
  RegenerateSession (DefaultConfig None) (empty_world 1000)
  = Ret (Some ErrSessionNotFound) (empty_world 1000) 0.
Proof.
  apply (no_session_attached (DefaultConfig None) (empty_world 1000) "notice"
           (VString "saved")).
  intros p. vm_compute. discriminate.
Defined.

(** *** Destroying a session *)

(** X12: [DestroySession], with a session attached: the record is deleted from
    the store, so that the in-memory store and the Redis store answer
    [ErrSessionNotFound] for its identifier from then on, and a cookie
    with an empty value and [MaxAge] -1 is added to the response. The
    context is left as it was: [GetSession] still returns the session. *)
Theorem DestroySession_deletes_record (b : backend) (config : Config)
    (w : World) (p : loc) (s : Session) :
  Store_ config = Some (store_of b) →
  locals (ctx w) !! "session" = Some (ASession p) →
  heap w !! p = Some s →
  ∃ w1,
    DestroySession config w = Ret None w1 0 ∧
    setCookies (ctx w1) = (setCookies (ctx w) ++ [deletion_cookie config])%list ∧
    locals (ctx w1) = locals (ctx w) ∧
    heap w1 = heap w ∧
    GetSession w1 = Ret (Ok p) w1 0 ∧
    (b ≠ Cookie →
     ∀ t, Get (store_of b) (ID s) (with_clock w1 t)
          = Ret (Err ErrSessionNotFound) (with_clock w1 t) 0).
Proof.
  intros Hstore Hctx Hp. rewrite (DestroySession_run _ _ _ _ _ Hstore Hctx Hp).
  destruct b as [| |prefix]; simpl.
  - eexists. split; [reflexivity|]. simpl. repeat split.
    + by rewrite GetSession_run; simpl; rewrite Hctx.
    + intros _ t. rewrite MemoryStore_Get_run. simpl.
      by rewrite lookup_delete_eq.
  - eexists. split; [reflexivity|]. simpl. repeat split.
    + by rewrite GetSession_run; simpl; rewrite Hctx.
    + done.
  - eexists. split; [reflexivity|]. simpl. repeat split.
    + by rewrite GetSession_run; simpl; rewrite Hctx.
    + intros _ t. rewrite RedisStore_Get_run. simpl.
      unfold Redis.Get. by rewrite find_delete_eq.
Qed.

Lemma DestroySession_deletes_record_witness :
  ∃ w1,
    DestroySession (config_with_key Memory "session") sample_world
    = Ret None w1 0 ∧
    setCookies (ctx w1)
    = (setCookies (ctx sample_world)
       ++ [deletion_cookie (config_with_key Memory "session")])%list ∧
    locals (ctx w1) = locals (ctx sample_world) ∧
    heap w1 = heap sample_world ∧
    GetSession w1 = Ret (Ok 1%positive) w1 0 ∧
    (Memory ≠ Cookie →
     ∀ t, MemoryStore_Get (ID sample_session) (with_clock w1 t)
          = Ret (Err ErrSessionNotFound) (with_clock w1 t) 0).
Proof.
  apply (DestroySession_deletes_record Memory
           (config_with_key Memory "session") sample_world 1 sample_session);
    reflexivity.
Defined.

(** *** After the handler *)





End MiddlewareFacts.

(** ** The session of a request (middleware.go) *)

Module RequestFacts.
Import GoTime Json Dyn Session Runtime SessionStore SessionMiddleware
  Vocabulary Scenarios.
Import GoTimeFacts JsonFacts DynFacts RedisFacts CodecFacts RuntimeFacts
  SessionFacts StoreFacts LifetimeFacts TouchFacts MiddlewareFacts.
Local Open Scope go_scope.

(** X15: with the in-memory store, a request that brings, in the session
    cookie, the identifier of a stored session that is not expired is
    served with that very session: no session is made, the table is left
    as it is, the session is marked as updated now, and the context
    holds it under the configured key and its identifier under
    ["session_id"]. *)
Theorem Middleware_finds_session_by_cookie (config : Config) (w : World)
    (id : string) (p : loc) (s : Session) :
  cookies (ctx w) !! CookieName (normalise config) = Some id →
  id ≠ "" →
  sessions w !! id = Some p →
  heap w !! p = Some s →
  ID s = id →
  IsExpired (clock w) s = false →
  resolve (normalise config) MemoryStore w
  = Ret (Ok p) (greeted (normalise config) w p s) 0 ∧
  ∀ next, Store_ config = Some MemoryStore →
          Middleware config next w
          = continue_with 0 (let* err := invoke next in
                             persist (normalise config) MemoryStore err)
                          (greeted (normalise config) w p s).
Proof.
  intros Hcookie Hne Hid Hp Hs He.
  assert (resolve (normalise config) MemoryStore w
          = Ret (Ok p) (greeted (normalise config) w p s) 0) as Hres.
  { unfold resolve, bind at 1, c_GetCookie. rewrite Hcookie.
    destruct (decide (id ≠ "")); [|done].
    unfold bind at 1. unfold bind at 1.
    change (Get MemoryStore id w) with (MemoryStore_Get id w).
    rewrite MemoryStore_Get_run, Hid, Hp, He. unfold ret at 1.
    unfold bind at 1. unfold bind at 1, deref at 1. rewrite Hp.
    unfold bind at 1.
    change (Touch MemoryStore (ID s) w) with (MemoryStore_Touch (ID s) w).
    rewrite MemoryStore_Touch_run, Hs, Hid, Hp. unfold ret at 1.
    unfold bind at 1, deref. simpl. rewrite lookup_insert_eq.
    unfold bind, c_Set, modify, ret. simpl. done. }
  split; [done|]. intros next Hstore.
  exact (Middleware_after_resolve _ _ _ _ _ _ _ Hstore Hres).
Qed.

Lemma Middleware_finds_session_by_cookie_witness :
  resolve (normalise (config_with_key Memory "session")) MemoryStore
          returning_visitor
  = Ret (Ok 1%positive)
        (greeted (normalise (config_with_key Memory "session"))
                 returning_visitor 1 redis_session) 0 ∧
  ∀ next, Store_ (config_with_key Memory "session") = Some MemoryStore →
          Middleware (config_with_key Memory "session") next returning_visitor
          = continue_with 0
              (let* err := invoke next in
               persist (normalise (config_with_key Memory "session"))
                       MemoryStore err)
              (greeted (normalise (config_with_key Memory "session"))
                       returning_visitor 1 redis_session).
Proof.
  apply (Middleware_finds_session_by_cookie
           (config_with_key Memory "session") returning_visitor "abc" 1
           redis_session); try reflexivity.
  discriminate.
Defined.

(** X16: with the in-memory store, a request that brings no session cookie,
    an empty one, one that names no stored session, or one that names an
    expired session gets a new session: its identifier is drawn afresh,
    it is saved in the table, and the context holds it under the
    configured key and its identifier under ["session_id"]. *)
Theorem Middleware_starts_new_session (config : Config) (w : World) :
  no_usable_cookie (normalise config) w →
  resolve (normalise config) MemoryStore w
  = Ret (Ok (fresh (dom (heap w)))) (welcomed (normalise config) w) 0 ∧
  ∀ next, Store_ config = Some MemoryStore →
          Middleware config next w
          = continue_with 0 (let* err := invoke next in
                             persist (normalise config) MemoryStore err)
                          (welcomed (normalise config) w).
Proof.
  intros Hno.
  assert (resolve (normalise config) MemoryStore w
          = Ret (Ok (fresh (dom (heap w)))) (welcomed (normalise config) w) 0)
    as Hres.
  { unfold resolve, bind at 1, c_GetCookie. unfold no_usable_cookie in Hno.
    assert (∀ cookie, cookies (ctx w) !! CookieName (normalise config) = cookie →
              match cookie with
              | Some value =>
                  if decide (value ≠ "") then
                    let* r := Get MemoryStore value in
                    match r with
                    | Ok session => ret (Some session)
                    | Err _ => ret None
                    end
                  else ret None
              | None => ret None
              end w = Ret None w 0) as Hfound.
    { intros [value|] Hc; [|done]. rewrite Hc in Hno.
      destruct (decide (value ≠ "")) as [Hv|]; [|done].
      destruct Hno as [->|Hno]; [done|].
      unfold bind at 1.
      change (Get MemoryStore value w) with (MemoryStore_Get value w).
      rewrite MemoryStore_Get_run.
      destruct (sessions w !! value) as [p|]; [|done].
      destruct Hno as (s & -> & ->). done. }
    unfold bind at 1. rewrite (Hfound _ eq_refl).
    unfold bind at 1. unfold bind at 1. unfold NewSession_.
    unfold bind at 1, Now. unfold bind at 1, rand_Read. unfold alloc.
    unfold bind at 1.
    change (Set_ MemoryStore ?p ?w) with (MemoryStore_Set p w).
    erewrite MemoryStore_Set_run by (simpl; apply lookup_insert_eq).
    unfold ret at 1. unfold bind at 1, deref. simpl. rewrite lookup_insert_eq.
    unfold bind, c_Set, modify, ret. simpl. done. }
  split; [done|]. intros next Hstore.
  exact (Middleware_after_resolve _ _ _ _ _ _ _ Hstore Hres).
Qed.

Lemma Middleware_starts_new_session_witness :
  resolve (normalise (config_with_key Memory "session")) MemoryStore
          (empty_world 1000)
  = Ret (Ok (fresh (dom (heap (empty_world 1000)))))
        (welcomed (normalise (config_with_key Memory "session"))
                  (empty_world 1000)) 0 ∧
  ∀ next, Store_ (config_with_key Memory "session") = Some MemoryStore →
          Middleware (config_with_key Memory "session") next (empty_world 1000)
          = continue_with 0
              (let* err := invoke next in
               persist (normalise (config_with_key Memory "session"))
                       MemoryStore err)
              (welcomed (normalise (config_with_key Memory "session"))
                        (empty_world 1000)).
Proof.
  apply (Middleware_starts_new_session (config_with_key Memory "session")
           (empty_world 1000)).
  exact I.
Defined.

(** X17: with the Redis store and a negative [MaxAge], a request without a
    session cookie is refused with [ErrSessionExpired]: the session made
    for it is expired at birth, the store does not take it, and the
    handler is not invoked. Nothing is written to Redis or to the
    response. *)
Theorem Middleware_Redis_negative_MaxAge (prefix : string) (config : Config)
    (next : callback (option error)) (w : World) :
  Store_ config = Some (RedisStore prefix) →
  MaxAge_ config < 0 →
  cookies (ctx w) !! CookieName (normalise config) = None →
  ∃ w',
    Middleware config next w = Ret (Some ErrSessionExpired) w' 0 ∧
    redis w' = redis w ∧ ctx w' = ctx w.
Proof.
  intros Hstore Hage Hcookie. unfold Middleware. rewrite Hstore.
  unfold bind at 1, resolve. unfold bind at 1, c_GetCookie. rewrite Hcookie.
  unfold bind at 1. unfold ret at 1. unfold bind at 1. unfold bind at 1.
  unfold NewSession_. unfold bind at 1, Now. unfold bind at 1, rand_Read.
  unfold alloc. unfold bind at 1.
  change (Set_ (RedisStore prefix) ?p ?w) with (RedisStore_Set prefix p w).
  erewrite RedisStore_Set_run by (simpl; apply lookup_insert_eq).
  assert ((MaxAge_ config =? 0) = false) as H0 by lia.
  simpl. rewrite !H0.
  set (new := NewSession (clock w) (hd zero32 (entropy w)) (MaxAge_ config)).
  assert (∃ data, Marshal new = Some data) as [data ->].
  { apply serialisable_Marshal. intros m k v [= <-] Hk.
    by rewrite lookup_empty in Hk. }
  simpl.
  assert ((Until (clock w) (Add (clock w) (MaxAge_ config)) <=? 0) = true) as ->.
  { unfold Until. rewrite Sub_nonpos. unfold Add. lia. }
  simpl. eexists. split; [reflexivity|]. done.
Qed.

Lemma Middleware_Redis_negative_MaxAge_witness :
  ∃ w',
    Middleware (mkConfig (Some (RedisStore "session:")) "session_id" "/" ""
                         (-1) false true SameSiteLaxMode "session")
               hello (empty_world 1000)
    = Ret (Some ErrSessionExpired) w' 0 ∧
    redis w' = redis (empty_world 1000) ∧ ctx w' = ctx (empty_world 1000).
Proof.
  apply (Middleware_Redis_negative_MaxAge "session:"
           (mkConfig (Some (RedisStore "session:")) "session_id" "/" ""
                     (-1) false true SameSiteLaxMode "session")
           hello (empty_world 1000)); reflexivity.
Defined.

End RequestFacts.

(** ** Regenerating a session (middleware.go) *)

Module RegenerateFacts.
Import GoTime Json Dyn Session Runtime SessionStore SessionMiddleware
  Vocabulary Scenarios.
Import GoTimeFacts JsonFacts DynFacts RedisFacts CodecFacts RuntimeFacts
  SessionFacts StoreFacts LifetimeFacts TouchFacts MiddlewareFacts.
Local Open Scope go_scope.



End RegenerateFacts.

(** ** The Redis cache (cache.go) *)

Module RedisCacheFacts.
Import GoTime Json Dyn Runtime Cache CacheMiddleware CacheHelpers Vocabulary
  Scenarios.
Import GoTimeFacts JsonFacts DynFacts RedisFacts RuntimeFacts StoreFacts
  CacheFacts.
Local Open Scope go_scope.

(** *** Looking up what was written *)

Lemma cache_lookup_found {D} r (dec : json → option D) key w j dl :
  Redis.find (clock w) (redis w) (prefix r +:+ key)
  = Some (Redis.Entry (Redis.RString (print j)) dl) →
  cache_lookup r dec key w
  = match dec j with Some d => Ok d | None => Err ErrUnmarshal end.
Proof.
  intros Hfind. unfold cache_lookup, Redis.Get. rewrite Hfind.
  rewrite parse_print. simpl. by destruct (dec j).
Qed.

Lemma cache_lookup_gone {D} r (dec : json → option D) key w :
  Redis.find (clock w) (redis w) (prefix r +:+ key) = None →
  cache_lookup r dec key w = Err ErrCacheMiss.
Proof. intros Hfind. unfold cache_lookup, Redis.Get. by rewrite Hfind. Qed.

Lemma Set_other_key now d key key' data ttl :
  key' ≠ key → Redis.Set_ now d key data ttl !! key' = d !! key'.
Proof. intros Hne. unfold Redis.Set_. by rewrite lookup_insert_ne. Qed.

(** X20: [Set] followed by [Get] of the same key. While the entry is
    there (at any time when no expiration was asked for, and before the
    expiration has passed otherwise) [Get] decodes the document that
    [Set] wrote. Once a positive expiration, or a millisecond if it is
    shorter than that, has passed, [Get] is a miss. No other key of the
    cache changes. *)
Theorem RedisCache_Set_then_Get {V D : Type} (r : RedisCache)
    (enc : V → option json) (dec : json → option D) (key : string) (v : V)
    (j : json) (ttl : Z) (w : World) (t : Z) :
  enc v = Some j →
  ∃ w1,
    RedisCache_Set r enc key v ttl w = Ret None w1 0 ∧
    (within ttl (clock w) t →
     RedisCache_Get r dec key (with_clock w1 t)
     = Ret (match dec j with Some d => Ok d | None => Err ErrUnmarshal end)
           (with_clock w1 t) 0) ∧
    (0 < ttl → clock w + Z.max ttl Millisecond <= t →
     RedisCache_Get r dec key (with_clock w1 t)
     = Ret (Err ErrCacheMiss) (with_clock w1 t) 0) ∧
    ∀ key', key' ≠ key →
            redis w1 !! (prefix r +:+ key') = redis w !! (prefix r +:+ key').
Proof.
  intros Hj. rewrite RedisCache_Set_run, Hj.
  eexists. split; [reflexivity|]. split; [|split].
  - intros Hin. rewrite RedisCache_Get_run. f_equal.
    destruct (find_Set_within (clock w) (redis w) (prefix r +:+ key) (print j)
                ttl t Hin) as [dl Hfind].
    by eapply cache_lookup_found.
  - intros Httl Ht. rewrite RedisCache_Get_run. f_equal.
    apply cache_lookup_gone. simpl.
    apply find_Set_gone; [done|]. pose proof (px_le_max ttl Httl). lia.
  - intros key' Hne. simpl. apply Set_other_key.
    intros Heq. by apply append_inj in Heq.
Qed.

Lemma RedisCache_Set_then_Get_witness :
  ∃ w1,
    RedisCache_Set default_cache marshal_value "n" (VInt 5) (5 * Minute)
                   (empty_world 1000) = Ret None w1 0 ∧
    (within (5 * Minute) (clock (empty_world 1000)) 2000 →
     RedisCache_Get default_cache (λ j, Some (unmarshal_value j)) "n"
                    (with_clock w1 2000)
     = Ret (match Some (unmarshal_value (JNum 5)) with
            | Some d => Ok d
            | None => Err ErrUnmarshal
            end) (with_clock w1 2000) 0) ∧
    (0 < 5 * Minute →
     clock (empty_world 1000) + Z.max (5 * Minute) Millisecond <= 2000 →
     RedisCache_Get default_cache (λ j, Some (unmarshal_value j)) "n"
                    (with_clock w1 2000)
     = Ret (Err ErrCacheMiss) (with_clock w1 2000) 0) ∧
    ∀ key', key' ≠ "n" →
            redis w1 !! (prefix default_cache +:+ key')
            = redis (empty_world 1000) !! (prefix default_cache +:+ key').
Proof.
  apply (RedisCache_Set_then_Get default_cache marshal_value
           (λ j, Some (unmarshal_value j)) "n" (VInt 5) (JNum 5) (5 * Minute)
           (empty_world 1000) 2000).
  reflexivity.
Defined.

(** *** Raw values *)





(** *** Invalidating *)

Lemma Invalidate_run cache keys w :
  ∃ w1,
    Invalidate cache keys w = Ret None w1 0 ∧
    w1 = with_redis w (redis w1) ∧
    (∀ key, key ∈ keys → redis w1 !! (prefix cache +:+ key) = None) ∧
    (∀ k, (∀ key, key ∈ keys → k ≠ prefix cache +:+ key) →
          redis w1 !! k = redis w !! k).
Proof.
  unfold Invalidate. revert w. induction keys as [|key keys IH]; intros w.
  { exists w. repeat split; try done.
    - by rewrite with_redis_id.
    - intros key Hin. by apply elem_of_nil in Hin. }
  simpl. unfold bind at 1, RedisCache_Delete at 1, bind, modify, ret. simpl.
  set (w' := with_redis w (delete (prefix cache +:+ key) (redis w))).
  destruct (IH w') as (w1 & Hrun & Hw1 & Hgone & Hkeep).
  exists w1. rewrite Hrun. split; [done|]. split; [|split].
  - rewrite Hw1. by destruct w.
  - intros key' [->|Hin]%elem_of_cons; [|by apply Hgone].
    destruct (decide (key ∈ keys)) as [Hin|Hnot]; [by apply Hgone|].
    rewrite Hkeep; [apply lookup_delete_eq|].
    intros key' Hin Heq. apply append_inj in Heq. by subst.
  - intros k Hk. rewrite Hkeep.
    + simpl. apply lookup_delete_ne. intros Heq. apply (Hk key); [left|done].
    + intros key' Hin. apply Hk. by right.
Qed.

(** X22: [Invalidate] returns no error; afterwards every key it was given is
    a miss, at any time, and no other key of the Redis server has
    changed. An empty list of keys changes nothing. *)
Theorem Invalidate_removes_listed_keys (cache : RedisCache)
    (keys : list string) (w : World) :
  ∃ w1,
    Invalidate cache keys w = Ret None w1 0 ∧
    w1 = with_redis w (redis w1) ∧
    (∀ (D : Type) (dec : json → option D) key t,
       key ∈ keys →
       RedisCache_Get cache dec key (with_clock w1 t)
       = Ret (Err ErrCacheMiss) (with_clock w1 t) 0) ∧
    (∀ k, (∀ key, key ∈ keys → k ≠ prefix cache +:+ key) →
          redis w1 !! k = redis w !! k) ∧
    (keys = [] → w1 = w).
Proof.
  destruct (Invalidate_run cache keys w) as (w1 & Hrun & Hw1 & Hgone & Hkeep).
  exists w1. split; [done|]. split; [done|]. split; [|split; [done|]].
  - intros D dec key t Hin. rewrite RedisCache_Get_run. f_equal.
    apply cache_lookup_gone. simpl. unfold Redis.find.
    by rewrite (Hgone key Hin).
  - intros ->. unfold Invalidate in Hrun. simpl in Hrun. by injection Hrun.
Qed.

End RedisCacheFacts.

(** ** Remembering and tagging (cache.go) *)

Module TagFacts.
Import GoTime Json Dyn Runtime Cache CacheMiddleware CacheHelpers Vocabulary
  Scenarios.
Import GoTimeFacts JsonFacts DynFacts RedisFacts RuntimeFacts StoreFacts
  CacheFacts RedisCacheFacts.
Local Open Scope go_scope.

(** *** Remember *)

(** X23: [Remember] on a miss, with a compute function that returns a value
    that can be serialised: the function is invoked once and the value
    is stored; while the entry is there, a second [Remember] of the key
    invokes no function, changes nothing and returns what the first call
    returned. *)
Theorem Remember_twice_computes_once {D : Type} (r : RedisCache)
    (dec : json → option D) (key : string) (ttl : Z)
    (fn fn' : callback (result value)) (w : World) (v : value) (w1 : World)
    (j : json) (t : Z) :
  cache_lookup r dec key w = Err ErrCacheMiss →
  fn w = Some (Ok v, w1) →
  marshal_value v = Some j →
  within ttl (clock w1) t →
  ∃ res w2,
    RedisCache_Remember r dec key ttl fn w = Ret res w2 1 ∧
    res = match dec j with Some d => Ok d | None => Err ErrUnmarshal end ∧
    RedisCache_Remember r dec key ttl fn' (with_clock w2 t)
    = Ret res (with_clock w2 t) 0.
Proof.
  intros Hmiss Hfn Hj Hin.
  destruct (find_Set_within (clock w1) (redis w1) (prefix r +:+ key) (print j)
              ttl t Hin) as [dl Hfind].
  eexists _, _. split; [|split; [reflexivity|]].
  - unfold RedisCache_Remember, bind at 1. rewrite RedisCache_Get_run, Hmiss.
    destruct (decide (ErrCacheMiss ≠ ErrCacheMiss)); [done|].
    unfold bind at 1, invoke. rewrite Hfn.
    unfold bind at 1. rewrite RedisCache_Set_run, Hj.
    rewrite parse_print. simpl. by destruct (dec j).
  - unfold RedisCache_Remember, bind at 1. rewrite RedisCache_Get_run.
    erewrite cache_lookup_found by exact Hfind.
    destruct (dec j) as [d|]; [done|].
    destruct (decide (ErrUnmarshal ≠ ErrCacheMiss)) as [_|Hn];
      [reflexivity|by destruct Hn].
Qed.

Lemma Remember_twice_computes_once_witness :
  ∃ res w2,
    RedisCache_Remember default_cache (λ j, Some (unmarshal_value j)) "n"
                        Minute (computing (VInt 5)) (empty_world 1000)
    = Ret res w2 1 ∧
    res = match Some (unmarshal_value (JNum 5)) with
          | Some d => Ok d
          | None => Err ErrUnmarshal
          end ∧
    RedisCache_Remember default_cache (λ j, Some (unmarshal_value j)) "n"
                        Minute (computing (VInt 6)) (with_clock w2 2000)
    = Ret res (with_clock w2 2000) 0.
Proof.
  apply (Remember_twice_computes_once default_cache
           (λ j, Some (unmarshal_value j)) "n" Minute (computing (VInt 5))
           (computing (VInt 6)) (empty_world 1000) (VInt 5) (empty_world 1000)
           (JNum 5) 2000).
  - reflexivity.
  - reflexivity.
  - reflexivity.
  - split; [discriminate|]. intros _. vm_compute. reflexivity.
Defined.

(** *** Tags *)


Lemma TaggedCache_Set_tag_run t key ttl tag w :
  TaggedCache_Set_tag t key ttl tag w
  = Ret () (with_redis w (tagged t key ttl (clock w) (redis w) tag)) 0.
Proof.
  unfold TaggedCache_Set_tag, tagged, tag_key, bind, modify, ret. simpl.
  by destruct (0 <? ttl).
Qed.

(** A round of [t.Set] touches the index key of its tag only. *)
Lemma tagged_other t key ttl now d tag k :
  k ≠ tag_key t tag → tagged t key ttl now d tag !! k = d !! k.
Proof.
  intros Hk. unfold tagged, Redis.SAdd, Redis.Expire.
  set (tk := tag_key t tag) in *.
  assert (∀ d' : gmap string Redis.entry,
            d' !! k = d !! k →
            (if 0 <? ttl
             then match Redis.find now d' tk with
                  | Some e =>
                      if Redis.ex ttl <=? 0 then delete tk d'
                      else <[tk := Redis.Entry (Redis.payload e)
                                     (Some (now + Redis.ex ttl))]> d'
                  | None => d'
                  end
             else d') !! k = d !! k) as Hexp.
  { intros d' Hd'. destruct (0 <? ttl); [|done].
    destruct (Redis.find now d' tk); [|done].
    destruct (Redis.ex ttl <=? 0).
    - by rewrite lookup_delete_ne.
    - by rewrite lookup_insert_ne. }
  destruct (Redis.find now d tk) as [[[data|s] dl]|]; simpl; apply Hexp;
    try done; by rewrite lookup_insert_ne.
Qed.







End TagFacts.

(** ** The cache middleware and its helpers (middleware.go) *)

Module ReplayFacts.
Import GoTime Json Dyn Runtime Cache CacheMiddleware CacheHelpers Vocabulary
  Scenarios.
Import GoTimeFacts JsonFacts Base64Facts DynFacts RedisFacts RuntimeFacts
  StoreFacts CacheFacts RedisCacheFacts.
Local Open Scope go_scope.

(** *** Replaying *)










(** X28: whenever the request is not answered from the cache (it is skipped,
    it is not a GET or HEAD request, or the lookup of its key fails),
    the middleware is the handler: it invokes the handler once and
    returns what the handler returned, in the world the handler left.
    It writes nothing to the cache. *)
Theorem Middleware_passes_through (config : CacheConfig)
    (cache : RedisCache) (next : callback (option error)) (w : World) :
  Cache_ config = Some cache →
  ¬ served_from_cache config cache w →
  Middleware config next w = invoke next w.
Proof.
  intros Hcache Hnot.
  destruct (match SkipFunc config with
            | Some skip => skip (ctx w)
            | None => false
            end) eqn:Hskip.
  { unfold Middleware. rewrite Hcache. unfold bind at 1, get.
    rewrite Hskip. by destruct (invoke next w). }
  destruct (bool_decide (method (ctx w) ≠ "GET")
            && bool_decide (method (ctx w) ≠ "HEAD")) eqn:Hmeth.
  { unfold Middleware. rewrite Hcache. unfold bind at 1, get.
    rewrite Hskip, Hmeth. by destruct (invoke next w). }
  assert (cacheable config (ctx w)) as Hreq.
  { split; [done|]. apply andb_false_iff in Hmeth as [H|H];
      apply bool_decide_eq_false in H; apply dec_stable in H; auto. }
  destruct (cache_lookup cache unmarshal_CachedResponse
              (key_of config (ctx w)) w) as [cached|err] eqn:Hlookup.
  { destruct Hnot. split; [done|]. by exists cached. }
  rewrite (Middleware_miss_stores_nothing config cache next w err Hcache Hreq
             Hlookup).
  unfold invoke. by destruct (next w) as [[e w1]|].
Qed.

Lemma Middleware_passes_through_witness :
  Middleware (DefaultCacheConfig (Some default_cache)) hello post_request
  = invoke hello post_request.
Proof.
  apply (Middleware_passes_through (DefaultCacheConfig (Some default_cache))
           default_cache hello post_request).
  - reflexivity.
  - intros [[_ [H|H]] _]; discriminate H.
Defined.

(** *** Stored responses *)








End ReplayFacts.

(** ** Session identifiers (store.go) *)

Module IdentifierFacts.
Import Base64 GoTime Session Base64Facts.

(** The URL alphabet, too, holds the character of every 6-bit value, and
    not the padding. *)
Lemma index_of_char_of_URL (n : N) :
  (n < 64)%N →
  index_of (char_of URLEncoding n) URLEncoding = Some n ∧
  Ascii.eqb (char_of URLEncoding n) pad = false.
Proof.
  intros Hn. rewrite <- (N2Nat.id n).
  assert (N.to_nat n < 64)%nat as Hk by lia.
  generalize dependent (N.to_nat n). clear. intros k Hk.
  do 64 (destruct k as [|k]; [vm_compute; done|]). lia.
Qed.

(** Decoding, in the URL alphabet, what was encoded in it. *)
Lemma decode_quads_Encode_URL s :
  decode_quads URLEncoding (EncodeToString URLEncoding s) = Some s.
Proof.
  cut (decode_quads URLEncoding (EncodeToString URLEncoding s) = Some s ∧
       (∀ a, decode_quads URLEncoding (EncodeToString URLEncoding (String a s))
             = Some (String a s)) ∧
       (∀ a b, decode_quads URLEncoding
                 (EncodeToString URLEncoding (String a (String b s)))
               = Some (String a (String b s)))).
  { by intros [? _]. }
  induction s as [|c s (IH0 & IH1 & IH2)].
  - split; [done|]. split.
    + intros a. pose proof (N_ascii_bounded a) as Ha.
      cbn [EncodeToString decode_quads].
      destruct (index_of_char_of_URL (N_of_ascii a / 4)) as (-> & _); [divmod|].
      destruct (index_of_char_of_URL (N_of_ascii a mod 4 * 16)) as (-> & _);
        [divmod|].
      rewrite Ascii.eqb_refl. simpl.
      replace (N_of_ascii a / 4 * 4 + N_of_ascii a mod 4 * 16 / 16)%N
        with (N_of_ascii a) by divmod.
      by rewrite ascii_N_embedding.
    + intros a b. pose proof (N_ascii_bounded a) as Ha.
      pose proof (N_ascii_bounded b) as Hb.
      cbn [EncodeToString decode_quads].
      destruct (index_of_char_of_URL (N_of_ascii a / 4)) as (-> & _); [divmod|].
      destruct (index_of_char_of_URL
                  (N_of_ascii a mod 4 * 16 + N_of_ascii b / 16))
        as (-> & _); [divmod|].
      destruct (index_of_char_of_URL (N_of_ascii b mod 16 * 4))
        as (-> & ->); [divmod|].
      rewrite Ascii.eqb_refl. simpl.
      replace (N_of_ascii a / 4 * 4
               + (N_of_ascii a mod 4 * 16 + N_of_ascii b / 16) / 16)%N
        with (N_of_ascii a) by divmod.
      replace ((N_of_ascii a mod 4 * 16 + N_of_ascii b / 16) mod 16 * 16
               + N_of_ascii b mod 16 * 4 / 4)%N
        with (N_of_ascii b) by divmod.
      by rewrite !ascii_N_embedding.
  - split; [apply IH1|]. split; [intros a; apply IH2|].
    intros a b. pose proof (N_ascii_bounded a) as Ha.
    pose proof (N_ascii_bounded b) as Hb. pose proof (N_ascii_bounded c) as Hc.
    cbn [EncodeToString decode_quads].
    destruct (index_of_char_of_URL (N_of_ascii a / 4)) as (-> & _); [divmod|].
    destruct (index_of_char_of_URL
                (N_of_ascii a mod 4 * 16 + N_of_ascii b / 16))
      as (-> & _); [divmod|].
    destruct (index_of_char_of_URL
                (N_of_ascii b mod 16 * 4 + N_of_ascii c / 64))
      as (-> & ->); [divmod|].
    destruct (index_of_char_of_URL (N_of_ascii c mod 64))
      as (-> & ->); [divmod|].
    rewrite IH0.
    replace (N_of_ascii a / 4 * 4
             + (N_of_ascii a mod 4 * 16 + N_of_ascii b / 16) / 16)%N
      with (N_of_ascii a) by divmod.
    replace ((N_of_ascii a mod 4 * 16 + N_of_ascii b / 16) mod 16 * 16
             + (N_of_ascii b mod 16 * 4 + N_of_ascii c / 64) / 4)%N
      with (N_of_ascii b) by divmod.
    replace ((N_of_ascii b mod 16 * 4 + N_of_ascii c / 64) mod 4 * 64
             + N_of_ascii c mod 64)%N
      with (N_of_ascii c) by divmod.
    by rewrite !ascii_N_embedding.
Qed.

Lemma length_Encode alphabet s :
  String.length (EncodeToString alphabet s)
  = (4 * ((String.length s + 2) / 3))%nat.
Proof.
  cut (String.length (EncodeToString alphabet s)
       = (4 * ((String.length s + 2) / 3))%nat ∧
       (∀ a, String.length (EncodeToString alphabet (String a s))
             = (4 * ((String.length (String a s) + 2) / 3))%nat) ∧
       (∀ a b, String.length (EncodeToString alphabet (String a (String b s)))
               = (4 * ((String.length (String a (String b s)) + 2) / 3))%nat)).
  { by intros [? _]. }
  induction s as [|c s (IH0 & IH1 & IH2)].
  - repeat split; intros; reflexivity.
  - split; [apply IH1|]. split; [intros a; apply IH2|].
    intros a b. cbn [EncodeToString String.length]. rewrite IH0.
    replace (S (S (S (String.length s))) + 2)%nat
      with (1 * 3 + (String.length s + 2))%nat by lia.
    rewrite Nat.div_add_l by lia. lia.
Qed.

(** X19: [generateSessionID] loses nothing of the random bytes: two
    sessions made by [NewSession] have the same identifier only when
    they were made from the same bytes. The identifier of a 32-byte draw
    has 44 characters, so it is never the empty string that the
    middleware takes for a missing cookie. *)
Theorem session_identifiers_distinct (b1 b2 : string) :
  (∀ now1 now2 maxAge1 maxAge2,
     ID (NewSession now1 b1 maxAge1) = ID (NewSession now2 b2 maxAge2) →
     b1 = b2) ∧
  (String.length b1 = 32%nat →
   String.length (generateSessionID b1) = 44%nat ∧
   generateSessionID b1 ≠ "").
Proof.
  split.
  - intros now1 now2 maxAge1 maxAge2 Heq. simpl in Heq.
    apply (f_equal (decode_quads URLEncoding)) in Heq.
    unfold generateSessionID in Heq.
    rewrite !decode_quads_Encode_URL in Heq. by injection Heq.
  - intros Hlen. unfold generateSessionID.
    rewrite length_Encode, Hlen. split; [reflexivity|].
    apply EncodeToString_nonempty. intros ->. discriminate Hlen.
Qed.

End IdentifierFacts.

(** ** Storing under tags (cache.go) *)

Module TaggedSetFacts.
Import GoTime Json Dyn Runtime Cache CacheMiddleware CacheHelpers Vocabulary
  Scenarios.
Import GoTimeFacts JsonFacts DynFacts RedisFacts RuntimeFacts StoreFacts
  CacheFacts RedisCacheFacts TagFacts.
Local Open Scope go_scope.

Lemma Set_tags_other t key ttl l w k :
  (∀ tag, tag ∈ l → k ≠ tag_key t tag) →
  ∃ w1,
    for_each (TaggedCache_Set_tag t key ttl) l w = Ret () w1 0 ∧
    clock w1 = clock w ∧
    redis w1 !! k = redis w !! k.
Proof.
  revert w. induction l as [|tag l IH]; intros w Hk.
  { by exists w. }
  simpl. unfold bind at 1. rewrite TaggedCache_Set_tag_run.
  set (w' := with_redis w _).
  destruct (IH w') as (w1 & Hrun & Hclock & Hsame).
  { intros tag' Hin. apply Hk. by right. }
  exists w1. rewrite Hrun. split; [done|]. split; [done|].
  rewrite Hsame. simpl. apply tagged_other. apply Hk. by left.
Qed.

Lemma TaggedCache_Set_run {V : Type} t (enc : V → option json) key v ttl w :
  TaggedCache_Set t enc key v ttl w =
  match enc v with
  | None => Ret (Some ErrUnsupportedType) w 0
  | Some j =>
      match for_each (TaggedCache_Set_tag t key ttl) (tags t)
              (with_redis w
                 (Redis.Set_ (clock w) (redis w) (prefix (cache t) +:+ key)
                             (print j) ttl)) with
      | Ret _ w1 n => Ret None w1 n
      | Panic => Panic
      end
  end.
Proof.
  unfold TaggedCache_Set, bind at 1. rewrite RedisCache_Set_run.
  destruct (enc v) as [j|]; [|done].
  unfold bind, ret. destruct (for_each _ _ _); simpl; [done|].
  by rewrite Nat.add_0_r.
Qed.

(** X24: [t.Set] stores the value as [Set] does: when no index key of the
    tags is the key of the value itself, [Get] of the key decodes the
    document that was written, while the entry is there. A value that
    cannot be serialised is refused before any tag is touched. *)
Theorem TaggedCache_Set_then_Get {V D : Type} (t : TaggedCache)
    (enc : V → option json) (dec : json → option D) (key : string) (v : V)
    (ttl : Z) (w : World) (t0 : Z) :
  (∀ tag, tag ∈ tags t → prefix (cache t) +:+ key ≠ tag_key t tag) →
  within ttl (clock w) t0 →
  match enc v with
  | None =>
      TaggedCache_Set t enc key v ttl w = Ret (Some ErrUnsupportedType) w 0
  | Some j =>
      ∃ w1,
        TaggedCache_Set t enc key v ttl w = Ret None w1 0 ∧
        RedisCache_Get (cache t) dec key (with_clock w1 t0)
        = Ret (match dec j with Some d => Ok d | None => Err ErrUnmarshal end)
              (with_clock w1 t0) 0
  end.
Proof.
  intros Hkeys Hin. rewrite TaggedCache_Set_run.
  destruct (enc v) as [j|]; [|done].
  set (w0 := with_redis w _).
  destruct (Set_tags_other t key ttl (tags t) w0 (prefix (cache t) +:+ key)
              Hkeys) as (w1 & Hrun & Hclock & Hsame).
  exists w1. rewrite Hrun. split; [done|].
  rewrite RedisCache_Get_run. f_equal.
  destruct (find_Set_within (clock w) (redis w) (prefix (cache t) +:+ key)
              (print j) ttl t0 Hin) as [dl Hfind].
  eapply cache_lookup_found. simpl. unfold Redis.find in *.
  rewrite Hsame. exact Hfind.
Qed.

Lemma TaggedCache_Set_then_Get_witness :
  ∃ w1,
    TaggedCache_Set (Tags default_cache ["products"]) marshal_value
                    "product:1" (VString "lamp") (10 * Minute)
                    (empty_world 1000) = Ret None w1 0 ∧
    RedisCache_Get default_cache (λ j, Some (unmarshal_value j)) "product:1"
                   (with_clock w1 2000)
    = Ret (match Some (unmarshal_value (JStr "lamp")) with
           | Some d => Ok d
           | None => Err ErrUnmarshal
           end) (with_clock w1 2000) 0.
Proof.
  apply (TaggedCache_Set_then_Get (Tags default_cache ["products"])
           marshal_value (λ j, Some (unmarshal_value j)) "product:1"
           (VString "lamp") (10 * Minute) (empty_world 1000) 2000).
  - intros tag [->|Hin]%elem_of_cons; [discriminate|].
    by apply elem_of_nil in Hin.
  - split; [discriminate|]. intros _. vm_compute. reflexivity.
Defined.

End TaggedSetFacts.
